(** * goes: the streaming transfer pipeline of the ElasticSearch dumper

    A shallow embedding of the Go sources (the [Batcher], the bulk-write
    client [EsConn.Bulk] with [parseBulkFailures], the ingestion workers of
    [EsConn.AcceptFrom], the scroll reader [Scroll.Next] / [readBulk] /
    [StreamTo], the file record format [Bulk.Store] / [ParseBulk], and the
    index metadata handling of [GetIndex] / [PutIndex]) together with the
    properties of the pipeline that were checked against it.

    Conventions.
    - Go's [int] is modelled by [Z]; [len] of a slice by [length].
    - Go's [string] and [[]byte] are both byte sequences and are modelled by
      [string] (a list of 8-bit characters).
    - An [error] is its message; the nil error is [None].
    - A channel is modelled by the sequence of values sent on it.
    - A [map[string]V] is a [gmap string V]; a nil map that Go tells apart
      from an empty one (when marshalling) is an [option]. *)

From Stdlib Require Import ZArith String Ascii List Lia Permutation.
From stdpp Require Import base option list gmap strings pretty sorting.

Set Warnings "-register-all".

Local Open Scope string_scope.
Local Open Scope Z_scope.
Local Open Scope list_scope.

(** ** Shared record types *)

Definition error := string.

(** [type Bulk struct { Id string; Type string; Doc []byte }] *)
Record Bulk := mkBulk { Id : string; Type' : string; Doc : string }.

#[global] Instance Bulk_eq_dec : EqDecision Bulk.
Proof. solve_decision. Defined.

(** ** Batcher *)

Module Batcher.

(** [type Batcher struct { batch []Bulk; size int; dest chan<- []Bulk }]
    The channel is represented by the batches sent on it so far. *)
Record t := mk { batch : list Bulk; size : Z; dest : list (list Bulk) }.

(** [Batcher{size: bulkSize, dest: dest}] *)
Definition new (bulkSize : Z) (ch : list (list Bulk)) : t :=
  {| batch := []; size := bulkSize; dest := ch |}.

(** [func (this *Batcher) Flush()] *)
Definition Flush (this : t) : t :=
  if negb (Z.of_nat (length (batch this)) =? 0)
  then {| batch := []; size := size this; dest := dest this ++ [batch this] |}
  else this.

(** [func (this *Batcher) Put(b Bulk)] *)
Definition Put (this : t) (b : Bulk) : t :=
  let this := {| batch := batch this ++ [b]; size := size this; dest := dest this |} in
  if Z.of_nat (length (batch this)) =? size this then Flush this else this.

(** A sequence of [Put] calls. *)
Definition PutAll (this : t) (bs : list Bulk) : t := fold_left Put bs this.

End Batcher.

(** ** JSON documents and the text layer of [encoding/json] *)

(** A JSON document as the scanner of [encoding/json] delivers it to the
    decoder: object members keep their order and their duplicates, a number
    keeps its literal. *)
Inductive json :=
| JNull
| JBool (b : bool)
| JNum (lit : string)
| JStr (s : string)
| JArr (items : list json)
| JObj (members : list (string * json)).

(** The text layer of the library: [scan] is what [json.Unmarshal] makes of
    a text before it decodes it into the target ([None] for a text that is
    not valid JSON), [spell] is the text [json.Marshal] writes for a
    document.  The pipeline is modelled over any such pair; [Json.text]
    below is a concrete one. *)
Class JsonText := { scan : string -> option json; spell : json -> string }.

Module Json.

Definition byte (n : Z) : ascii := ascii_of_nat (Z.to_nat n).
Definition code (c : ascii) : Z := Z.of_nat (nat_of_ascii c).
Definition is_byte (n : Z) (c : ascii) : bool := code c =? n.

Definition quote : ascii := byte 34.
Definition backslash : ascii := byte 92.
Definition newline : ascii := byte 10.

Definition is_ws (c : ascii) : bool :=
  is_byte 32 c || is_byte 9 c || is_byte 10 c || is_byte 13 c.

Fixpoint skip_ws (s : string) : string :=
  match s with
  | String c r => if is_ws c then skip_ws r else s
  | EmptyString => s
  end.

Definition is_digit (c : ascii) : bool := (48 <=? code c) && (code c <=? 57).

Definition hex_val (c : ascii) : option Z :=
  let n := code c in
  if (48 <=? n) && (n <=? 57) then Some (n - 48)
  else if (97 <=? n) && (n <=? 102) then Some (n - 87)
  else if (65 <=? n) && (n <=? 70) then Some (n - 55)
  else None.

Definition hex4 (a b c d : ascii) : option Z :=
  match hex_val a, hex_val b, hex_val c, hex_val d with
  | Some a, Some b, Some c, Some d => Some (((a * 16 + b) * 16 + c) * 16 + d)
  | _, _, _, _ => None
  end.

(** UTF-8 encoding of a code point. *)
Definition utf8 (cp : Z) : string :=
  if cp <? 128 then String (byte cp) ""
  else if cp <? 2048 then
    String (byte (192 + cp / 64)) (String (byte (128 + cp mod 64)) "")
  else if cp <? 65536 then
    String (byte (224 + cp / 4096))
      (String (byte (128 + (cp / 64) mod 64)) (String (byte (128 + cp mod 64)) ""))
  else
    String (byte (240 + cp / 262144))
      (String (byte (128 + (cp / 4096) mod 64))
         (String (byte (128 + (cp / 64) mod 64)) (String (byte (128 + cp mod 64)) ""))).

Definition is_high_surrogate (cp : Z) : bool := (55296 <=? cp) && (cp <=? 56319).
Definition is_low_surrogate (cp : Z) : bool := (56320 <=? cp) && (cp <=? 57343).
Definition replacement : Z := 65533.

(** The text of a string literal after its opening quote, up to the
    closing quote: the contents with the escapes undone, and the rest of
    the input.  [pending] is a high surrogate read just before. *)
Fixpoint string_lit (pending : option Z) (s : string) : option (string * string) :=
  let flush := match pending with Some _ => utf8 replacement | None => "" end in
  match s with
  | EmptyString => None
  | String c r =>
    if is_byte 34 c then Some (flush, r)
    else if is_byte 92 c then
      match r with
      | String e r1 =>
        let simple (ch : Z) :=
          '(t, rest) ← string_lit None r1; Some (flush +:+ String (byte ch) t, rest) in
        if is_byte 34 e then simple 34
        else if is_byte 92 e then simple 92
        else if is_byte 47 e then simple 47
        else if is_byte 98 e then simple 8
        else if is_byte 102 e then simple 12
        else if is_byte 110 e then simple 10
        else if is_byte 114 e then simple 13
        else if is_byte 116 e then simple 9
        else if is_byte 117 e then
          match r1 with
          | String h1 (String h2 (String h3 (String h4 r2))) =>
            cp ← hex4 h1 h2 h3 h4;
            if is_high_surrogate cp then
              '(t, rest) ← string_lit (Some cp) r2; Some (flush +:+ t, rest)
            else if is_low_surrogate cp then
              match pending with
              | Some hi =>
                '(t, rest) ← string_lit None r2;
                Some (utf8 (65536 + (hi - 55296) * 1024 + (cp - 56320)) +:+ t, rest)
              | None =>
                '(t, rest) ← string_lit None r2; Some (utf8 replacement +:+ t, rest)
              end
            else
              '(t, rest) ← string_lit None r2; Some (flush +:+ utf8 cp +:+ t, rest)
          | _ => None
          end
        else None
      | EmptyString => None
      end
    else if code c <? 32 then None
    else '(t, rest) ← string_lit None r; Some (flush +:+ String c t, rest)
  end.

Fixpoint digits (s : string) : string * string :=
  match s with
  | String c r => if is_digit c then let '(d, rest) := digits r in (String c d, rest) else ("", s)
  | EmptyString => ("", s)
  end.

Definition digits1 (s : string) : option (string * string) :=
  let '(d, rest) := digits s in
  match d with EmptyString => None | _ => Some (d, rest) end.

(** A number literal: an optional minus sign, an integer part (a single
    zero, or digits not starting with zero), an optional fraction and an
    optional exponent. *)
Definition number_lit (s : string) : option (string * string) :=
  let '(sign, s) :=
    match s with String c r => if is_byte 45 c then (String c "", r) else ("", s) | _ => ("", s) end in
  '(int, s) ← match s with
              | String c r => if is_byte 48 c then Some (String c "", r) else digits1 s
              | EmptyString => None
              end;
  '(frac, s) ← match s with
               | String c r =>
                 if is_byte 46 c then '(d, rest) ← digits1 r; Some (String c d, rest)
                 else Some ("", s)
               | EmptyString => Some ("", s)
               end;
  '(exp, s) ← match s with
              | String c r =>
                if is_byte 101 c || is_byte 69 c then
                  let '(sg, r) :=
                    match r with
                    | String c' r' => if is_byte 43 c' || is_byte 45 c' then (String c' "", r') else ("", r)
                    | _ => ("", r)
                    end in
                  '(d, rest) ← digits1 r; Some (String c (sg +:+ d), rest)
                else Some ("", s)
              | EmptyString => Some ("", s)
              end;
  Some (sign +:+ int +:+ frac +:+ exp, s).

Fixpoint strip_prefix (p s : string) : option string :=
  match p, s with
  | EmptyString, _ => Some s
  | String a p', String b s' => if Ascii.eqb a b then strip_prefix p' s' else None
  | String _ _, EmptyString => None
  end.

(** The parser is a recursive descent over values, array elements and
object members.  Each of the three is written over the parsers it calls;
[parsers_at] ties them together, [fuel] bounding the depth of the
recursion, and [parse] supplies enough of it for the whole input. *)
Definition parser (A : Type) : Type := string -> option (A * string).

(** One JSON value at the head of [s] (after white space), and the rest of
the input. *)
Definition value_step (value : parser json) (elements : parser (list json))
  (members : parser (list (string * json))) : parser json := fun s =>
match skip_ws s with
| EmptyString => None
| String c r =>
  if is_byte 123 c then
    match skip_ws r with
    | String c' r' =>
      if is_byte 125 c' then Some (JObj [], r')
      else '(ms, rest) ← members (skip_ws r); Some (JObj ms, rest)
    | EmptyString => None
    end
  else if is_byte 91 c then
    match skip_ws r with
    | String c' r' =>
      if is_byte 93 c' then Some (JArr [], r')
      else '(vs, rest) ← elements (skip_ws r); Some (JArr vs, rest)
    | EmptyString => None
    end
  else if is_byte 34 c then
    '(t, rest) ← string_lit None r; Some (JStr t, rest)
  else if is_byte 116 c then rest ← strip_prefix "true" (String c r); Some (JBool true, rest)
  else if is_byte 102 c then rest ← strip_prefix "false" (String c r); Some (JBool false, rest)
  else if is_byte 110 c then rest ← strip_prefix "null" (String c r); Some (JNull, rest)
  else '(lit, rest) ← number_lit (String c r); Some (JNum lit, rest)
end.

(** The elements of an array after its opening bracket, up to the closing
one. *)
Definition elements_step (value : parser json) (elements : parser (list json))
  : parser (list json) := fun s =>
'(v, s) ← value s;
match skip_ws s with
| String c r =>
  if is_byte 44 c then '(vs, rest) ← elements r; Some (v :: vs, rest)
  else if is_byte 93 c then Some ([v], r)
  else None
| EmptyString => None
end.

(** The members of an object after its opening brace, up to the closing
one. *)
Definition members_step (value : parser json) (members : parser (list (string * json)))
  : parser (list (string * json)) := fun s =>
match skip_ws s with
| String c r =>
  if is_byte 34 c then
    '(k, s) ← string_lit None r;
    match skip_ws s with
    | String c r =>
      if is_byte 58 c then
        '(v, s) ← value r;
        match skip_ws s with
        | String c r =>
          if is_byte 44 c then '(ms, rest) ← members r; Some ((k, v) :: ms, rest)
          else if is_byte 125 c then Some ([(k, v)], r)
          else None
        | EmptyString => None
        end
      else None
    | EmptyString => None
    end
  else None
| EmptyString => None
end.

Record parsers := mkParsers {
  p_value : parser json;
  p_elements : parser (list json);
  p_members : parser (list (string * json))
}.

Fixpoint parsers_at (fuel : nat) : parsers :=
match fuel with
| O => mkParsers (fun _ => None) (fun _ => None) (fun _ => None)
| S fuel =>
  let p := parsers_at fuel in
  mkParsers (value_step (p_value p) (p_elements p) (p_members p))
            (elements_step (p_value p) (p_elements p))
            (members_step (p_value p) (p_members p))
end.

Definition value (fuel : nat) : parser json := p_value (parsers_at fuel).
Definition elements (fuel : nat) : parser (list json) := p_elements (parsers_at fuel).
Definition members (fuel : nat) : parser (list (string * json)) := p_members (parsers_at fuel).

(** A whole text: one value, white space around it, nothing else. *)
Definition parse (s : string) : option json :=
  '(v, rest) ← value (2 * String.length s + 2) s;
  match skip_ws rest with EmptyString => Some v | _ => None end.

(** Printing, compact as [json.Marshal] does: no white space; quote,
    backslash and control characters of a string escaped; [<], [>] and [&]
    written as [\u003c], [\u003e] and [\u0026]. *)
Definition hex_digit (n : Z) : ascii := if n <? 10 then byte (48 + n) else byte (87 + n).

Definition u00 (n : Z) : string :=
  String backslash (String (byte 117) (String (byte 48) (String (byte 48)
    (String (hex_digit (n / 16)) (String (hex_digit (n mod 16)) ""))))).

Fixpoint escape (s : string) : string :=
  match s with
  | EmptyString => ""
  | String c r =>
    let n := code c in
    (if (n =? 34) || (n =? 92) then String backslash (String c "")
     else if n =? 10 then String backslash (String (byte 110) "")
     else if n =? 13 then String backslash (String (byte 114) "")
     else if n =? 9 then String backslash (String (byte 116) "")
     else if (n <? 32) || (n =? 60) || (n =? 62) || (n =? 38) then u00 n
     else String c "") +:+ escape r
  end.

Definition quoted (s : string) : string :=
  String quote (escape s +:+ String quote "").

Fixpoint sep_by (sep : string) (l : list string) : string :=
  match l with
  | [] => ""
  | [x] => x
  | x :: l => x +:+ sep +:+ sep_by sep l
  end.

Fixpoint print (j : json) : string :=
  match j with
  | JNull => "null"
  | JBool true => "true"
  | JBool false => "false"
  | JNum lit => lit
  | JStr s => quoted s
  | JArr vs => "[" +:+ sep_by "," (map print vs) +:+ "]"
  | JObj ms => "{" +:+ sep_by "," (map (fun m => quoted (fst m) +:+ ":" +:+ print (snd m)) ms) +:+ "}"
  end.

(** A concrete text layer. *)
Definition text : JsonText := {| scan := parse; spell := print |}.

(** Name matching of the decoder: a member named [key] goes to the struct
    field tagged [name] when the two are equal after case folding.  On
    ASCII that is upper-casing; the long s (U+017F) and the Kelvin sign
    (U+212A) fold to [S] and [K]. *)
Fixpoint fold_name (s : string) : string :=
  match s with
  | EmptyString => ""
  | String c r =>
    let n := code c in
    if (97 <=? n) && (n <=? 122) then String (byte (n - 32)) (fold_name r)
    else
      match r with
      | String c1 r1 =>
        if (n =? 197) && (code c1 =? 191) then String (byte 83) (fold_name r1)
        else
          match r1 with
          | String c2 r2 =>
            if (n =? 226) && (code c1 =? 132) && (code c2 =? 170)
            then String (byte 75) (fold_name r2)
            else String c (fold_name r)
          | EmptyString => String c (fold_name r)
          end
      | EmptyString => String c (fold_name r)
      end
  end.

Definition names (key name : string) : bool := String.eqb (fold_name key) (fold_name name).

End Json.

(** ** Decoding a document into a Go value

    [json.Unmarshal] walks the document and stores what fits into the
    target it is given; what does not fit is reported (the first such error
    is the one returned) and decoding goes on.  A decoder therefore maps a
    document and the current target to the new target and an optional
    error.  A [null] leaves a string, number, boolean or struct target as
    it is and resets a map, slice or interface target.  A slice is reset
    and filled element by element, each element starting from its zero
    value, as the documentation of [Unmarshal] states. *)

Module Decode.

Definition dec (T : Type) : Type := json -> T -> T * option error.

Definition first_err (e1 e2 : option error) : option error :=
  match e1 with Some _ => e1 | None => e2 end.

Definition mismatch (what : string) : option error :=
  Some ("json: cannot unmarshal into Go value of type " +:+ what).

Definition dec_string : dec string := fun j cur =>
  match j with
  | JStr s => (s, None)
  | JNull => (cur, None)
  | _ => (cur, mismatch "string")
  end.

Definition dec_bool : dec bool := fun j cur =>
  match j with
  | JBool b => (b, None)
  | JNull => (cur, None)
  | _ => (cur, mismatch "bool")
  end.

(** The value of a literal made of digits only. *)
Fixpoint decimal (acc : Z) (s : string) : option Z :=
  match s with
  | EmptyString => Some acc
  | String c r => if Json.is_digit c then decimal (acc * 10 + (Json.code c - 48)) r else None
  end.

(** [strconv.ParseInt(lit, 10, 64)]: a literal with a fraction or an
    exponent, or out of the range of [int], is refused. *)
Definition parse_int (lit : string) : option Z :=
  n ← match lit with
      | String c r => if Json.is_byte 45 c then Z.opp <$> decimal 0 r else decimal 0 lit
      | EmptyString => None
      end;
  if (- 2 ^ 63 <=? n) && (n <? 2 ^ 63) then Some n else None.

Definition dec_int : dec Z := fun j cur =>
  match j with
  | JNum lit => match parse_int lit with Some n => (n, None) | None => (cur, mismatch "int") end
  | JNull => (cur, None)
  | _ => (cur, mismatch "int")
  end.

(** A target of type [Any] (an empty interface) takes any document;
    Go's nil interface is [JNull]. *)
Definition dec_any : dec json := fun j _ => (j, None).

(** A struct target: each member of the object is handed to [field],
    which decodes it into the field that the member's key names and
    ignores a key that names no field. *)
Definition dec_struct {T} (what : string) (field : string -> dec T) : dec T := fun j cur =>
  match j with
  | JObj ms =>
    fold_left (fun acc m =>
                 let '(cur', e') := field (fst m) (snd m) (fst acc) in
                 (cur', first_err (snd acc) e'))
              ms (cur, None)
  | JNull => (cur, None)
  | _ => (cur, mismatch what)
  end.

(** A slice target. *)
Definition dec_slice {T} (what : string) (zero : T) (elem : dec T) : dec (list T) := fun j cur =>
  match j with
  | JArr vs =>
    fold_left (fun acc v =>
                 let '(x, e') := elem v zero in
                 (fst acc ++ [x], first_err (snd acc) e'))
              vs ([], None)
  | JNull => ([], None)
  | _ => (cur, mismatch what)
  end.

(** A [map[string]T] target; [None] is the nil map.  The element of each
    member is decoded from the zero value and stored under its key. *)
Definition dec_map {T} (what : string) (zero : T) (elem : dec T)
  : dec (option (gmap string T)) := fun j cur =>
  match j with
  | JObj ms =>
    let '(m, e) :=
      fold_left (fun acc kv =>
                   let '(x, e') := elem (snd kv) zero in
                   (<[fst kv := x]> (fst acc), first_err (snd acc) e'))
                ms (default ∅ cur, None) in
    (Some m, e)
  | JNull => (None, None)
  | _ => (cur, mismatch what)
  end.

(** [json.Unmarshal(data, &target)] *)
Definition Unmarshal `{JsonText} {T} (d : dec T) (data : string) (target : T) : T * option error :=
  match scan data with
  | None => (target, Some "invalid character in JSON text")
  | Some j => d j target
  end.

End Decode.

(** ** HTTP exchanges *)

Module Http.

Record Request := mkRequest { method : string; url : string; body : string }.

(** What a request comes back with: [client.Do] failed, or reading the
    body failed after [partial], or a status line and a body arrived. *)
Inductive Reply :=
| DoFailed (e : error)
| ReadFailed (partial : string) (e : error)
| Replied (code : Z) (status : string) (body : string).

(** [func readRequest(client, req) (body []byte, err error)] *)
Definition readRequest (r : Reply) : string * option error :=
  match r with
  | DoFailed e => ("", Some e)
  | ReadFailed partial e => (partial, Some e)
  | Replied code status body =>
    if code >=? 300
    then (body, Some ("Http error[" +:+ status +:+ "]: " +:+ body))
    else (body, None)
  end.

End Http.

(** ** The file record format *)

(** [func (bulk Bulk) Store(wrt io.Writer) error]: the bytes written by
    the [Fprintf] with the template
    [{ "create" : { "_id" : "%v", "_type": "%v" } }\n%s\n]. *)
Definition q : string := String Json.quote "".

Definition header (id type : string) : string :=
"{ " +:+ q +:+ "create" +:+ q +:+ " : { " +:+ q +:+ "_id" +:+ q +:+ " : " +:+ q +:+ id +:+ q
+:+ ", " +:+ q +:+ "_type" +:+ q +:+ ": " +:+ q +:+ type +:+ q +:+ " } }".

Definition nl : string := String Json.newline "".

Definition Store (bulk : Bulk) : string :=
  header (Id bulk) (Type' bulk) +:+ nl +:+ Doc bulk +:+ nl.

(** ** Bulk writes *)

(** The decoded response of the bulk endpoint:
    [struct { Errors bool; Items []struct { Create struct { Id string; Status int } } }] *)
Module BulkResp.

Record create := mkCreate { Id : string; Status : Z }.
Record item := mkItem { Create : create }.
Record t := mk { Errors : bool; Items : list item }.

Definition zero_create : create := {| Id := ""; Status := 0 |}.
Definition zero_item : item := {| Create := zero_create |}.
Definition zero : t := {| Errors := false; Items := [] |}.

Import Decode.

Definition dec_create : dec create :=
  dec_struct "struct" (fun key j cur =>
    if Json.names key "_id" then
      let '(v, e) := dec_string j (Id cur) in ({| Id := v; Status := Status cur |}, e)
    else if Json.names key "status" then
      let '(v, e) := dec_int j (Status cur) in ({| Id := Id cur; Status := v |}, e)
    else (cur, None)).

Definition dec_item : dec item :=
  dec_struct "struct" (fun key j cur =>
    if Json.names key "create" then
      let '(v, e) := dec_create j (Create cur) in ({| Create := v |}, e)
    else (cur, None)).

Definition dec_t : dec t :=
  dec_struct "struct" (fun key j cur =>
    if Json.names key "errors" then
      let '(v, e) := dec_bool j (Errors cur) in ({| Errors := v; Items := Items cur |}, e)
    else if Json.names key "items" then
      let '(v, e) := dec_slice "slice" zero_item dec_item j (Items cur) in
      ({| Errors := Errors cur; Items := v |}, e)
    else (cur, None)).

End BulkResp.

Module EsBulk.

Section WithText.
Context `{JsonText}.

(** One pass of the loop over [respObj.Items]: the set of failed ids and
    the lines logged. *)
Definition classify (acc : gmap string bool * list string) (item : BulkResp.item)
  : gmap string bool * list string :=
  let '(fails, log) := acc in
  let id := BulkResp.Id (BulkResp.Create item) in
  let status := BulkResp.Status (BulkResp.Create item) in
  if negb (status =? 201) then
    if (status =? 429) || (status =? 503) then (<[id := true]> fails, log)
    else if status =? 409 then (fails, log)
    else (fails, log ++ ["Failed " +:+ id +:+ " with " +:+ pretty status])
  else (fails, log).

(** [func parseBulkFailures(resp []byte) (fails map[string]bool, err error)],
with the lines it logs. *)
Definition parseBulkFailures (resp : string) : gmap string bool * option error * list string :=
  let fails : gmap string bool := ∅ in
  let '(respObj, err) := Decode.Unmarshal BulkResp.dec_t resp BulkResp.zero in
  match err with
  | Some e => (fails, Some e, [])
  | None =>
    if BulkResp.Errors respObj then
      let '(fails, log) := fold_left classify (BulkResp.Items respObj) (fails, []) in
      (fails, None, log)
    else (fails, None, [])
  end.

(** The request of [EsConn.Bulk]: the records in file format, one after
    the other. *)
Definition Bulk_body (ops : list Bulk) : string :=
  fold_left (fun buf b => buf +:+ Store b) ops "".

(** [func (this *EsConn) Bulk(ops []Bulk) (ret []Bulk, err error)], given
    the reply to its request, with the lines logged. *)
Definition Bulk (ops : list Bulk) (reply : Http.Reply) : list Bulk * option error * list string :=
  let '(resp, err) := Http.readRequest reply in
  match err with
  | Some e => ([], Some e, [])
  | None =>
    let '(fails, err, log) := parseBulkFailures resp in
    match err with
    | Some e => ([], Some e, log)
    | None =>
      if 0 <? Z.of_nat (size fails)
      then (filter (fun op => is_Some (fails !! Id op)) ops, None, log)
      else ([], None, log)
    end
  end.

End WithText.

End EsBulk.


(** ** Ingestion: [EsConn.AcceptFrom]

    [AcceptFrom] starts [parallel] goroutines that share the channel [src],
    the connection and the named result [err], and waits for all of them.
    The run is modelled as a machine whose state holds the channel, the
    goroutines and the shared variable, and which moves by one event at a
    time: the producer sends or closes, a goroutine takes its next turn
    (with the reply the destination gives to the request it makes, if
    any), or the wait ends.  A panic in a goroutine ends the program. *)
Module Ingest.

(** Where a goroutine stands: in [for batch := range src], in
    [for len(leftover) > 0], or past [group.Done()]. *)
Inductive phase := Receiving | Draining | Finished.

Record worker := mkWorker { at_phase : phase; leftover : list Bulk }.

Inductive status :=
| Running
| Panicked (e : error)
| Returned (err : option error).

(** What the run did to records: a batch was taken off the channel, or a
    list of records was submitted and answered by [reply]. *)
Inductive action :=
| Pulled (batch : list Bulk)
| Submitted (ops : list Bulk) (reply : Http.Reply).

Record state := mk {
  src : list (list Bulk);
  closed : bool;
  workers : list worker;
  err : option error;
  log : list string;
  outcome : status;
  history : list action
}.

Inductive event :=
| Send (batch : list Bulk)
| Close
| Pull (i : nat) (reply : Http.Reply)
| Exhaust (i : nat)
| Retry (i : nat) (reply : Http.Reply)
| Done (i : nat)
| Return.

(** [group.Add(parallel)] panics on a negative count. *)
Definition init (parallel : Z) : state :=
{| src := []; closed := false;
   workers := replicate (Z.to_nat parallel) (mkWorker Receiving []);
   err := None; log := [];
   outcome := if parallel <? 0 then Panicked "sync: negative WaitGroup counter" else Running;
   history := [] |}.

Section WithText.
Context `{JsonText}.

(** [leftover, err = this.Bulk(ops); if err != nil { panic(err) }] in
    goroutine [i], whose phase is [ph]. *)
Definition submit (s : state) (i : nat) (ph : phase) (ops : list Bulk) (reply : Http.Reply)
  (before : list string) (after : list Bulk -> list string) (acts : list action) : state :=
let '(ret, e, lg) := EsBulk.Bulk ops reply in
{| src := src s; closed := closed s;
   workers := <[i := mkWorker ph ret]> (workers s);
   err := e;
   log := log s ++ before ++ lg ++ (match e with Some _ => [] | None => after ret end);
   outcome := match e with Some e' => Panicked e' | None => Running end;
   history := history s ++ acts ++ [Submitted ops reply] |}.

Definition imported (batch ret : list Bulk) : list string :=
["Imported " +:+ pretty (Z.of_nat (length batch) - Z.of_nat (length ret))
 +:+ "/" +:+ pretty (Z.of_nat (length batch))].

Definition pushing (lo : list Bulk) : list string :=
["Pushing in last " +:+ pretty (Z.of_nat (length lo))].

Definition set_src (s : state) (ch : list (list Bulk)) : state :=
{| src := ch; closed := closed s; workers := workers s; err := err s; log := log s;
   outcome := outcome s; history := history s |}.

Definition set_phase (s : state) (i : nat) (w : worker) (ph : phase) : state :=
{| src := src s; closed := closed s;
   workers := <[i := mkWorker ph (leftover w)]> (workers s);
   err := err s; log := log s; outcome := outcome s; history := history s |}.

(** One move of the machine; [None] when the event cannot happen in [s]. *)
Definition step (s : state) (ev : event) : option state :=
match outcome s with
| Running =>
  match ev with
  | Send batch =>
    if closed s then None else Some (set_src s (src s ++ [batch]))
  | Close =>
    if closed s then None
    else Some {| src := src s; closed := true; workers := workers s; err := err s;
                 log := log s; outcome := outcome s; history := history s |}
  | Pull i reply =>
    match workers s !! i, src s with
    | Some (mkWorker Receiving lo), batch :: rest =>
      let ops := batch ++ lo in
      Some (submit (set_src s rest) i Receiving ops reply [] (imported ops) [Pulled batch])
    | _, _ => None
    end
  | Exhaust i =>
    match workers s !! i, src s with
    | Some (mkWorker Receiving lo), [] =>
      if closed s then Some (set_phase s i (mkWorker Receiving lo) Draining) else None
    | _, _ => None
    end
  | Retry i reply =>
    match workers s !! i with
    | Some (mkWorker Draining (op :: lo)) =>
      Some (submit s i Draining (op :: lo) reply (pushing (op :: lo)) (fun _ => []) [])
    | _ => None
    end
  | Done i =>
    match workers s !! i with
    | Some (mkWorker Draining []) => Some (set_phase s i (mkWorker Draining []) Finished)
    | _ => None
    end
  | Return =>
    if forallb (fun w => match at_phase w with Finished => true | _ => false end) (workers s)
    then Some {| src := src s; closed := closed s; workers := workers s; err := err s;
                 log := log s; outcome := Returned (err s); history := history s |}
    else None
  end
| _ => None
end.

(** A run: the events one after the other. *)
Fixpoint run (s : state) (evs : list event) : option state :=
match evs with
| [] => Some s
| ev :: evs => s' ← step s ev; run s' evs
end.

(** [func (this *EsConn) AcceptFrom(parallel int, src chan []Bulk) (err error)]
    under a schedule [evs]. *)
Definition AcceptFrom (parallel : Z) (evs : list event) : option state :=
run (init parallel) evs.

End WithText.

End Ingest.


(** ** Extraction: [Scroll.Next], [readBulk], [StreamTo] *)

Module Extract.

(** A hit: a [map[string]Any], possibly nil. *)
Definition hit : Type := option (gmap string json).

(** [h[key]]: nil when the key is absent or the map is nil. *)
Definition index (h : hit) (key : string) : json :=
default JNull (h ≫= fun m => m !! key).

Import Decode.

(** The target of [Next]:
    [struct { Hits struct { Hits []map[string]Any `json:"hits"` } `json:"hits"` }] *)
Definition dec_inner : dec (list hit) :=
dec_struct "struct" (fun key j cur =>
  if Json.names key "hits" then dec_slice "slice" None (dec_map "map" JNull dec_any) j cur
  else (cur, None)).

Definition dec_hits : dec (list hit) :=
dec_struct "struct" (fun key j cur =>
  if Json.names key "hits" then dec_inner j cur else (cur, None)).

(** The target of [getScrollId]: [struct { ScrollID string `json:"_scroll_id"` }] *)
Definition dec_scroll_id : dec string :=
dec_struct "struct" (fun key j cur =>
  if Json.names key "_scroll_id" then dec_string j cur else (cur, None)).

(** What the source answers for one collection: the reply to the request
    that opens the scroll, and the replies to the successive [Next] calls.
    A scroll asked beyond its last scripted reply answers the empty page. *)
Record collection := mkCollection { opening : Http.Reply; pages : list Http.Reply }.

(** What a run of the producer leaves behind: the batches sent on the
    channel, whether the channel was closed, and the panic that ended the
    program, if any. *)
Record stream := mkStream { sent : list (list Bulk); closed : bool; panic : option error }.

Section WithText.
Context `{JsonText}.

(** [func (this *EsConn) NewScroll(typeName string, size int) (scroll Scroll, err error)],
    given the reply to its request; the scroll is represented by its id. *)
Definition NewScroll (reply : Http.Reply) : string * option error :=
let '(resp, err) := Http.readRequest reply in
match err with
| Some e => ("", Some e)
| None =>
  let '(scrollID, err) := Unmarshal dec_scroll_id resp "" in
  match err with
  | Some e => ("", Some e)
  | None => (scrollID, None)
  end
end.

(** [func (this *Scroll) Next() ([]map[string]Any, error)], given the reply
    to its request.  The result of [json.Unmarshal] is not looked at. *)
Definition Next (reply : Http.Reply) : list hit * option error :=
match reply with
| Http.DoFailed e => ([], Some e)
| Http.ReadFailed _ e => ([], Some e)
| Http.Replied _ _ data =>
  let '(hits, _) := Unmarshal dec_hits data [] in
  (hits, None)
end.

(** The body of [for _, h := range hits]; the type assertion
    [h["_id"].(string)] panics on anything but a string.  Once a panic is
    under way nothing more is put. *)
Definition put_hit (typeName : string) (acc : Batcher.t * option error) (h : hit)
  : Batcher.t * option error :=
match acc with
| (b, Some e) => (b, Some e)
| (b, None) =>
  let bytes := spell (index h "_source") in
  match index h "_id" with
  | JStr id => (Batcher.Put b (mkBulk id typeName bytes), None)
  | _ => (b, Some "interface conversion: interface {} is not string")
  end
end.

(** [for hits, err := scroll.Next(); len(hits) != 0 && err == nil; hits, err = scroll.Next()]
    over the replies the scroll gives: the batcher at the end, the panic if
    any, and the replies never asked for. *)
Fixpoint pages_loop (typeName : string) (b : Batcher.t) (script : list Http.Reply)
  : Batcher.t * option error * list Http.Reply :=
match script with
| [] => (b, None, [])
| reply :: rest =>
  let '(hits, err) := Next reply in
  if negb (Z.of_nat (length hits) =? 0) && negb (bool_decide (is_Some err)) then
    match fold_left (put_hit typeName) hits (b, None) with
    | (b', Some e) => (b', Some e, rest)
    | (b', None) => pages_loop typeName b' rest
    end
  else (b, None, rest)
end.

(** [func (this *EsConn) readBulk(typeName string, window, bulkSize int, dest chan<- []Bulk)]:
    the channel afterwards and the panic, if any.  The deferred [Flush]
    runs on the way out, also when the loop panics; a failure to open the
    scroll panics before the batcher exists. *)
Definition readBulk (c : collection) (typeName : string) (window bulkSize : Z)
  (dest : list (list Bulk)) : list (list Bulk) * option error :=
let '(scroll, err) := NewScroll (opening c) in
match err with
| Some e => (dest, Some e)
| None =>
  let batcher := Batcher.new bulkSize dest in
  let '(batcher, p, _) := pages_loop typeName batcher (pages c) in
  (Batcher.dest (Batcher.Flush batcher), p)
end.

(** [for _, t := range this.types { this.readBulk(t, window, bulkSize, dest) }] *)
Fixpoint each_type (es : string -> collection) (types : list string) (window bulkSize : Z)
  (dest : list (list Bulk)) : list (list Bulk) * option error :=
match types with
| [] => (dest, None)
| t :: types =>
  match readBulk (es t) t window bulkSize dest with
  | (dest, Some e) => (dest, Some e)
  | (dest, None) => each_type es types window bulkSize dest
  end
end.

(** [func (this *EsConn) StreamTo(window, bulkSize int, dest chan []Bulk)];
    the deferred [close(dest)] runs on every way out. *)
Definition StreamTo (es : string -> collection) (types : list string) (window bulkSize : Z)
  : stream :=
let '(dest, p) := each_type es types window bulkSize [] in
{| sent := dest; closed := true; panic := p |}.

End WithText.

End Extract.


(** ** Reading records back from a file *)

Module File.

(** A [bufio.Reader] is represented by the bytes it has yet to deliver. *)
Definition reader : Type := string.

Definition io_EOF : error := "EOF".

(** The bytes up to and including the first [delim], and what follows. *)
Fixpoint read_until (delim : ascii) (src : reader) : option (string * reader) :=
match src with
| EmptyString => None
| String c r =>
  if Ascii.eqb c delim then Some (String c "", r)
  else '(line, rest) ← read_until delim r; Some (String c line, rest)
end.

(** [func (b *Reader) ReadBytes(delim byte) ([]byte, error)]: without a
    delimiter it returns what is left, with [io.EOF]. *)
Definition ReadBytes (delim : ascii) (src : reader) : string * option error * reader :=
match read_until delim src with
| Some (line, rest) => (line, None, rest)
| None => (src, Some io_EOF, "")
end.

(** The target of [ParseBulk]:
    [struct { Create struct { Id string `json:"_id"`; Type string `json:"_type"` } `json:"create"` }],
    as the pair of [Id] and [Type]. *)
Definition dec_create : Decode.dec (string * string) :=
Decode.dec_struct "struct" (fun key j cur =>
  if Json.names key "_id" then
    let '(v, e) := Decode.dec_string j (fst cur) in ((v, snd cur), e)
  else if Json.names key "_type" then
    let '(v, e) := Decode.dec_string j (snd cur) in ((fst cur, v), e)
  else (cur, None)).

Definition dec_bulkOp : Decode.dec (string * string) :=
Decode.dec_struct "struct" (fun key j cur =>
  if Json.names key "create" then dec_create j cur else (cur, None)).

Section WithText.
Context `{JsonText}.

(** [func ParseBulk(src *bufio.Reader) (Bulk, error)], with the reader
    afterwards. *)
Definition ParseBulk (src : reader) : Bulk * option error * reader :=
let '(op, err, src) := ReadBytes Json.newline src in
match err with
| Some e => (mkBulk "" "" "", Some e, src)
| None =>
  let '(bulkOp, err) := Decode.Unmarshal dec_bulkOp op ("", "") in
  match err with
  | Some e => (mkBulk "" "" "", Some e, src)
  | None =>
    let '(item, err, src) := ReadBytes Json.newline src in
    (mkBulk (fst bulkOp) (snd bulkOp) item, err, src)
  end
end.

End WithText.

End File.


(** ** Index metadata: [GetIndex] and [PutIndex] *)

(** The order in which a [for k := range m] visits the keys of a map is
    chosen by the Go runtime; the model takes it as given, and knows only
    that every key is visited once. *)
Class MapRange := {
  range : forall {V : Type}, gmap string V -> list string;
  range_keys : forall (V : Type) (m : gmap string V), range m ≡ₚ (map_to_list m).*1
}.

Module Meta.

(** [IndexSettings.Index] *)
Record settings := mkSettings {
  Cache : json;
  NumShards : string;
  NumRepls : string;
  Refresh : json;
  Similarity : json;
  Analysis : json;
  TransLog : json;
  Uuid : json;
  Version : json
}.

(** [type IndexSettings struct { Index struct { ... } `json:"index"` }] *)
Record IndexSettings := mkIndexSettings { Index' : settings }.

(** [type Index struct { Aliases, Mappings map[string]Any; Settings IndexSettings; Warmers map[string]Any }] *)
Record Index := mkIndex {
  Aliases : option (gmap string json);
  Mappings : option (gmap string json);
  Settings : IndexSettings;
  Warmers : option (gmap string json)
}.

Definition zero_settings : settings := mkSettings JNull "" "" JNull JNull JNull JNull JNull JNull.
Definition zero : Index := mkIndex None None (mkIndexSettings zero_settings) None.

Import Decode.

Definition set_field {A} (v : A * option error) (f : A -> settings) : settings * option error :=
(f (fst v), snd v).

Definition dec_settings : dec settings :=
dec_struct "struct" (fun key j c =>
  if Json.names key "cache" then
    set_field (dec_any j (Cache c)) (fun v => mkSettings v (NumShards c) (NumRepls c)
      (Refresh c) (Similarity c) (Analysis c) (TransLog c) (Uuid c) (Version c))
  else if Json.names key "number_of_shards" then
    set_field (dec_string j (NumShards c)) (fun v => mkSettings (Cache c) v (NumRepls c)
      (Refresh c) (Similarity c) (Analysis c) (TransLog c) (Uuid c) (Version c))
  else if Json.names key "number_of_replicas" then
    set_field (dec_string j (NumRepls c)) (fun v => mkSettings (Cache c) (NumShards c) v
      (Refresh c) (Similarity c) (Analysis c) (TransLog c) (Uuid c) (Version c))
  else if Json.names key "refresh_interval" then
    set_field (dec_any j (Refresh c)) (fun v => mkSettings (Cache c) (NumShards c) (NumRepls c)
      v (Similarity c) (Analysis c) (TransLog c) (Uuid c) (Version c))
  else if Json.names key "similarity" then
    set_field (dec_any j (Similarity c)) (fun v => mkSettings (Cache c) (NumShards c) (NumRepls c)
      (Refresh c) v (Analysis c) (TransLog c) (Uuid c) (Version c))
  else if Json.names key "analysis" then
    set_field (dec_any j (Analysis c)) (fun v => mkSettings (Cache c) (NumShards c) (NumRepls c)
      (Refresh c) (Similarity c) v (TransLog c) (Uuid c) (Version c))
  else if Json.names key "translog" then
    set_field (dec_any j (TransLog c)) (fun v => mkSettings (Cache c) (NumShards c) (NumRepls c)
      (Refresh c) (Similarity c) (Analysis c) v (Uuid c) (Version c))
  else if Json.names key "uuid" then
    set_field (dec_any j (Uuid c)) (fun v => mkSettings (Cache c) (NumShards c) (NumRepls c)
      (Refresh c) (Similarity c) (Analysis c) (TransLog c) v (Version c))
  else if Json.names key "version" then
    set_field (dec_any j (Version c)) (fun v => mkSettings (Cache c) (NumShards c) (NumRepls c)
      (Refresh c) (Similarity c) (Analysis c) (TransLog c) (Uuid c) v)
  else (c, None)).

Definition dec_IndexSettings : dec IndexSettings :=
dec_struct "struct" (fun key j c =>
  if Json.names key "index" then
    let '(v, e) := dec_settings j (Index' c) in (mkIndexSettings v, e)
  else (c, None)).

Definition dec_anymap : dec (option (gmap string json)) := dec_map "map" JNull dec_any.

Definition dec_Index : dec Index :=
dec_struct "struct" (fun key j c =>
  if Json.names key "aliases" then
    let '(v, e) := dec_anymap j (Aliases c) in (mkIndex v (Mappings c) (Settings c) (Warmers c), e)
  else if Json.names key "mappings" then
    let '(v, e) := dec_anymap j (Mappings c) in (mkIndex (Aliases c) v (Settings c) (Warmers c), e)
  else if Json.names key "settings" then
    let '(v, e) := dec_IndexSettings j (Settings c) in
    (mkIndex (Aliases c) (Mappings c) v (Warmers c), e)
  else if Json.names key "warmers" then
    let '(v, e) := dec_anymap j (Warmers c) in (mkIndex (Aliases c) (Mappings c) (Settings c) v, e)
  else (c, None)).

(** The target [map[string]Index]. *)
Definition dec_meta : dec (option (gmap string Index)) := dec_map "map" zero dec_Index.

(** [json.Marshal] writes the keys of a map in sorted order, a nil map as
    [null], and the fields of a struct in the order of their
    declaration. *)
Definition enc_map {V} (enc : V -> json) (m : option (gmap string V)) : json :=
match m with
| None => JNull
| Some m =>
  JObj (map (fun kv => (fst kv, enc (snd kv)))
            (merge_sort (fun a b => String.le (fst a) (fst b)) (map_to_list m)))
end.

Definition enc_settings (s : settings) : json :=
JObj [("cache", Cache s); ("number_of_shards", JStr (NumShards s));
      ("number_of_replicas", JStr (NumRepls s)); ("refresh_interval", Refresh s);
      ("similarity", Similarity s); ("analysis", Analysis s); ("translog", TransLog s);
      ("uuid", Uuid s); ("version", Version s)].

Definition enc_Index (x : Index) : json :=
JObj [("aliases", enc_map id (Aliases x)); ("mappings", enc_map id (Mappings x));
      ("settings", JObj [("index", enc_settings (Index' (Settings x)))]);
      ("warmers", enc_map id (Warmers x))].

Definition enc_meta (m : option (gmap string Index)) : json := enc_map enc_Index m.

(** [type EsConn struct { hostPrefix, path string; types []string; client *http.Client }] *)
Record EsConn := mkEsConn { hostPrefix : string; path : string; types : list string }.

(** [m[key]] on a map that may be nil: the zero value when the key is
    absent. *)
Definition at_key (m : option (gmap string Index)) (key : string) : Index :=
default zero (m ≫= fun m => m !! key).

Definition keys_of {V} `{MapRange} (m : option (gmap string V)) : list string :=
match m with None => [] | Some m => range m end.

(** [for k := range meta { name = k }]: the key visited last, or the empty
    string. *)
Definition last_key `{MapRange} (m : option (gmap string Index)) : string :=
default "" (last (keys_of m)).

Definition clear_aliases (x : Index) : Index :=
mkIndex (Some ∅) (Mappings x) (Settings x) (Warmers x).

Definition set_repls (x : Index) (v : string) : Index :=
let s := Index' (Settings x) in
mkIndex (Aliases x) (Mappings x)
  (mkIndexSettings (mkSettings (Cache s) (NumShards s) v (Refresh s) (Similarity s)
                               (Analysis s) (TransLog s) (Uuid s) (Version s)))
  (Warmers x).

Definition set_shards (x : Index) (v : string) : Index :=
let s := Index' (Settings x) in
mkIndex (Aliases x) (Mappings x)
  (mkIndexSettings (mkSettings (Cache s) v (NumRepls s) (Refresh s) (Similarity s)
                               (Analysis s) (TransLog s) (Uuid s) (Version s)))
  (Warmers x).

Section WithText.
Context {T : JsonText} {R : MapRange}.

(** The metadata value that [PutIndex] marshals, from the decoded blob. *)
Definition PutIndex_value (meta : option (gmap string Index)) (repls shards : Z) : Index :=
let oldIndexName := last_key meta in
let metaVal := at_key meta oldIndexName in
let metaVal := clear_aliases metaVal in
let metaVal := if repls >=? 0 then set_repls metaVal (pretty repls) else metaVal in
let metaVal := if repls >=? 0 then set_shards metaVal (pretty shards) else metaVal in
metaVal.

(** [func (this *EsConn) PutIndex(metaString string, repls int, shards int) (err error)],
    given the reply to the request it makes: the connection afterwards,
    the request if one was made, and the error. *)
Definition PutIndex (this : EsConn) (metaString : string) (repls shards : Z) (reply : Http.Reply)
  : EsConn * option Http.Request * option error :=
let '(meta, err) := Unmarshal dec_meta metaString (Some ∅) in
match err with
| Some e => (this, None, Some e)
| None =>
  let oldIndexName := last_key meta in
  let this := mkEsConn (hostPrefix this) (path this) (keys_of (Mappings (at_key meta oldIndexName))) in
  let metaBlob := spell (enc_Index (PutIndex_value meta repls shards)) in
  let reqMapping := Http.mkRequest "PUT" (hostPrefix this +:+ path this) metaBlob in
  let '(_, err) := Http.readRequest reply in
  (this, Some reqMapping, err)
end.

(** How a call of [GetIndex] ends. *)
Inductive got :=
| Got (blob : string)
| Failed (e : error)
| Fatal (message : string)
| Panic (message : string).

(** [func (this *EsConn) GetIndex() (string, error)], given the reply to
    its request.  It does not look at the status before decoding; a status
    of 400 or more ends the program in [log.Fatalf] after the metadata was
    decoded, and a body that is the literal [null] leaves a nil map, the
    assignment to which panics. *)
Definition GetIndex (this : EsConn) (reply : Http.Reply) : EsConn * got :=
match reply with
| Http.DoFailed e => (this, Failed e)
| Http.ReadFailed _ e => (this, Failed e)
| Http.Replied code status data =>
  let '(meta, err) := Unmarshal dec_meta data (Some ∅) in
  match err with
  | Some e => (this, Failed e)
  | None =>
    let indexName := last_key meta in
    let this := mkEsConn (hostPrefix this) (path this) (keys_of (Mappings (at_key meta indexName))) in
    let metaVal := clear_aliases (at_key meta indexName) in
    match meta with
    | None => (this, Panic "assignment to entry in nil map")
    | Some m =>
      let meta := Some (<[indexName := metaVal]> m) in
      if code >=? 400
      then (this, Fatal ("Elastic error[" +:+ status +:+ "]: " +:+ data))
      else (this, Got (spell (enc_meta meta)))
    end
  end
end.

End WithText.

(** A range that visits the keys in the order of the map's listing. *)
Definition listed_range : MapRange :=
{| range := fun V m => (map_to_list m).*1;
   range_keys := fun V m => Permutation_refl _ |}.

End Meta.


(** ** The flat-file adapter: [FileSink] and [FileSource] *)

Module FileFlow.

(** What a write to the file comes to: everything was written, or only the
    first [n] bytes were, with an error. *)
Inductive outcome :=
| Written
| Short (n : nat) (e : error).

Fixpoint take_bytes (n : nat) (s : string) : string :=
match n, s with
| S n, String c r => String c (take_bytes n r)
| _, _ => EmptyString
end.

(** One [Fprintf] to the file. *)
Definition write (file data : string) (o : outcome) : string * option error :=
match o with
| Written => (file +:+ data, None)
| Short n e => (file +:+ take_bytes n data, Some e)
end.

(** The outcome of the next write, and the outcomes after it; a write
    beyond the script succeeds. *)
Definition next_outcome (script : list outcome) : outcome * list outcome :=
match script with
| [] => (Written, [])
| o :: script => (o, script)
end.

(** [func (this *FileSink) PutIndex(meta string, repls, shards int) error]:
    the file afterwards and the error. *)
Definition PutIndex (file meta : string) (repls shards : Z) (o : outcome) : string * option error :=
write file (meta +:+ nl) o.

(** [for _, b := range batch { err := b.Store(this.sink); if err != nil { return err } }] *)
Fixpoint store_batch (file : string) (batch : list Bulk) (script : list outcome)
  : string * option error * list outcome :=
match batch with
| [] => (file, None, script)
| b :: batch =>
  let '(o, script) := next_outcome script in
  match write file (Store b) o with
  | (file, Some e) => (file, Some e, script)
  | (file, None) => store_batch file batch script
  end
end.

(** [func (this *FileSink) AcceptFrom(parallel int, src chan []Bulk) error]
    on the batches that arrive on the channel: the file afterwards and the
    error. *)
Fixpoint AcceptFrom (parallel : Z) (src : list (list Bulk)) (file : string)
  (script : list outcome) : string * option error :=
match src with
| [] => (file, None)
| batch :: src =>
  match store_batch file batch script with
  | (file, Some e, _) => (file, Some e)
  | (file, None, script) => AcceptFrom parallel src file script
  end
end.

(** [func (this *FileSink) DeleteIndex() error] *)
Definition DeleteIndex : option error := None.

(** [func (this *FileSource) GetIndex() (string, error)]: the first line,
    with the reader afterwards. *)
Definition GetIndex (src : File.reader) : string * option error * File.reader :=
File.ReadBytes Json.newline src.

Section WithText.
Context `{JsonText}.

(** The loop of [FileSource.StreamTo]: [ParseBulk] until [io.EOF], which
    ends the loop, or another error, which panics.  Every round that goes on
    has consumed input; [fuel] bounds the number of rounds, and [None]
    stands for running out of it. *)
Fixpoint records_loop (fuel : nat) (src : File.reader) (batcher : Batcher.t)
  : option (Batcher.t * option error) :=
match fuel with
| O => None
| S fuel =>
  let '(bulk, err, src) := File.ParseBulk src in
  match err with
  | Some e =>
    if String.eqb e File.io_EOF then Some (batcher, None)
    else Some (batcher, Some e)
  | None => records_loop fuel src (Batcher.Put batcher bulk)
  end
end.

(** [func (this *FileSource) StreamTo(window, bulkSize int, dest chan []Bulk)];
    the deferred [Flush] and [close(dest)] run on every way out. *)
Definition StreamTo (src : File.reader) (window bulkSize : Z) : option Extract.stream :=
'(batcher, p) ← records_loop (S (String.length src)) src (Batcher.new bulkSize []);
Some {| Extract.sent := Batcher.dest (Batcher.Flush batcher);
        Extract.closed := true;
        Extract.panic := p |}.

End WithText.

End FileFlow.

(** ** Vocabulary of the statements *)

(** Reading a bulk response item by item. *)
Module Outcome.

Definition retriable (status : Z) : bool := (status =? 429) || (status =? 503).

Definition dropped (status : Z) : bool :=
  negb (status =? 201) && negb (retriable status) && negb (status =? 409).

Definition item_id (it : BulkResp.item) : string := BulkResp.Id (BulkResp.Create it).
Definition item_status (it : BulkResp.item) : Z := BulkResp.Status (BulkResp.Create it).

(** The ids the response reports as overloaded. *)
Definition failed_ids (r : BulkResp.t) : list string :=
  if BulkResp.Errors r
  then map item_id (filter (fun it => retriable (item_status it) = true) (BulkResp.Items r))
  else [].

(** The lines logged for the items that are neither created, nor
    duplicates, nor overloaded. *)
Definition failure_log (r : BulkResp.t) : list string :=
  if BulkResp.Errors r
  then map (fun it => "Failed " +:+ item_id it +:+ " with " +:+ pretty (item_status it))
           (filter (fun it => dropped (item_status it) = true) (BulkResp.Items r))
  else [].

(** The response answers the submitted records one by one, in order. *)
Definition answers (ops : list Bulk) (r : BulkResp.t) : Prop :=
  map Id ops = map item_id (BulkResp.Items r).

(** The reading of the specification: the submitted records whose own
    item of the response has status 429 or 503. *)
Definition leftover_by_status (ops : list Bulk) (r : BulkResp.t) : list Bulk :=
  if BulkResp.Errors r
  then map fst (filter (fun p => retriable (item_status (snd p)) = true)
                       (zip ops (BulkResp.Items r)))
  else [].

End Outcome.


(** Accounting for the records of an ingestion run. *)
Module Account.

Import Outcome.



Section WithText.
Context `{JsonText}.

(** The decoded response carried by a reply that [Bulk] accepts. *)
Definition response_of (reply : Http.Reply) : option BulkResp.t :=
match reply with
| Http.Replied code _ body =>
  if code >=? 300 then None
  else match Decode.Unmarshal BulkResp.dec_t body BulkResp.zero with
       | (r, None) => Some r
       | (_, Some _) => None
       end
| _ => None
end.







End WithText.

End Account.






(** The extraction as the specification words it: one batcher shared by
    all collections, not flushed when a collection's cursor is exhausted,
    flushed once after the last collection. *)
Module ExtractSpec.

Section WithText.
Context `{JsonText}.



End WithText.

End ExtractSpec.




(** Every byte of the string satisfies [p]. *)
Fixpoint all_bytes (p : ascii -> bool) (s : string) : bool :=
match s with
| EmptyString => true
| String c r => p c && all_bytes p r
end.

(** A printable ASCII character other than the double quote and the
    backslash: what a JSON string literal holds as it is. *)
Definition plain_byte (c : ascii) : bool :=
(32 <=? Json.code c) && (Json.code c <? 127)
&& negb (Json.code c =? 34) && negb (Json.code c =? 92).

Definition plain (s : string) : bool := all_bytes plain_byte s.




(** The value of the member named [key] of an object, if there is one. *)
Definition member (key : string) (j : json) : option json :=
match j with
| JObj ms => snd <$> find (fun m => String.eqb (fst m) key) ms
| _ => None
end.

(** The settings block of a marshalled index: [settings.index]. *)
Definition index_settings (j : json) : option json :=
member "settings" j ≫= member "index".




(** The records in file format, one after the other. *)
Definition stored (rs : list Bulk) : string :=
fold_right (fun b file => Store b +:+ file) "" rs.

(** * Properties *)

(** ** Batcher *)

Section BatcherFacts.
Import Batcher.

(** What holds of a batcher between calls: the buffer is strictly below
    capacity and everything sent so far is a full batch. *)
Definition steady (n : Z) (b : Batcher.t) : Prop :=
  size b = n /\ Z.of_nat (length (batch b)) < n
  /\ Forall (fun x => Z.of_nat (length x) = n) (dest b).

Lemma Put_steady n b r : 1 <= n -> steady n b -> steady n (Put b r).
Proof.
  intros Hn (Hs & Hlt & Hall). unfold Put, Flush; cbn [batch size dest].
  rewrite length_app; cbn [length].
  destruct (Z.eqb_spec (Z.of_nat (length (batch b) + 1)) (size b)) as [Heq | Hne].
  - destruct (Z.eqb_spec (Z.of_nat (length (batch b) + 1)) 0) as [H0 | _]; [lia |].
    cbn. repeat split; cbn; [lia | lia |].
    apply Forall_app; split; [assumption |].
    constructor; [| constructor]. rewrite length_app; cbn [length]. lia.
  - repeat split; cbn; [lia | | assumption].
    rewrite length_app; cbn [length]. lia.
Qed.

Lemma Put_contents b r :
  concat (dest (Put b r)) ++ batch (Put b r) = concat (dest b) ++ batch b ++ [r].
Proof.
  unfold Put, Flush; cbn [batch size dest].
  destruct (_ =? size b); [| reflexivity].
  destruct (negb _) eqn:E; cbn [batch dest].
  - rewrite concat_app; cbn. now rewrite !app_nil_r.
  - reflexivity.
Qed.

Lemma PutAll_steady n rs : forall b, 1 <= n -> steady n b -> steady n (PutAll b rs).
Proof.
  induction rs as [| r rs IH]; intros b Hn Hb; cbn; [assumption |].
  apply IH; [assumption |]. now apply Put_steady.
Qed.

Lemma PutAll_contents rs : forall b,
  concat (dest (PutAll b rs)) ++ batch (PutAll b rs) = concat (dest b) ++ batch b ++ rs.
Proof.
  induction rs as [| r rs IH]; intros b; cbn.
  - now rewrite app_nil_r.
  - unfold PutAll in IH. rewrite IH, app_assoc, Put_contents.
    now rewrite <- !app_assoc.
Qed.

Lemma Flush_dest b :
  dest (Flush b) = dest b ++ (if decide (batch b = []) then [] else [batch b])
  /\ batch (Flush b) = [].
Proof.
  unfold Flush. destruct b as [[| x l] n d]; cbn.
  - now rewrite app_nil_r.
  - split; reflexivity.
Qed.

(** C4.  With a capacity of at least one, after any sequence of [Put]
    calls on a fresh batcher every batch sent from within [Put] has
    exactly [size] records; the final [Flush] sends the remaining buffer
    as one batch when it is not empty and sends nothing when it is empty;
    no batch sent exceeds [size]; and the batches sent are the records
    put, in order. *)
Theorem Batcher_batches (bulkSize : Z) (rs : list Bulk) :
  1 <= bulkSize ->
  let b := PutAll (new bulkSize []) rs in
  Forall (fun x => Z.of_nat (length x) = bulkSize) (dest b)
  /\ dest (Flush b) = dest b ++ (if decide (batch b = []) then [] else [batch b])
  /\ Z.of_nat (length (batch b)) < bulkSize
  /\ Forall (fun x => 1 <= Z.of_nat (length x) <= bulkSize) (dest (Flush b))
  /\ concat (dest (Flush b)) = rs.
Proof.
  intros Hn b.
  assert (Hst : steady bulkSize b).
  { apply PutAll_steady; [assumption |]. repeat split; cbn; [lia | constructor]. }
  destruct Hst as (Hs & Hlt & Hall).
  destruct (Flush_dest b) as [Hd Hb].
  pose proof (PutAll_contents rs (new bulkSize [])) as Hc. cbn in Hc. fold b in Hc.
  repeat split; try assumption.
  - rewrite Hd. apply Forall_app; split.
    + eapply Forall_impl; [exact Hall |]. cbn. intros x Hx. lia.
    + destruct (decide (batch b = [])) as [_ | Hne]; [constructor |].
      constructor; [| constructor].
      destruct (batch b); [congruence | cbn in *; lia].
  - rewrite Hd, concat_app, <- Hc. f_equal.
    destruct (decide (batch b = [])) as [-> | _]; cbn; [reflexivity | apply app_nil_r].
Qed.

Lemma Batcher_batches_witness :
  1 <= 2 /\
  dest (Flush (PutAll (new 2 []) [mkBulk "1" "t" "{}"; mkBulk "2" "t" "{}"; mkBulk "3" "t" "{}"]))
  = [[mkBulk "1" "t" "{}"; mkBulk "2" "t" "{}"]; [mkBulk "3" "t" "{}"]].
Proof.
  split; [lia |].
  pose proof (Batcher_batches 2 [mkBulk "1" "t" "{}"; mkBulk "2" "t" "{}"; mkBulk "3" "t" "{}"]
                ltac:(lia)) as (_ & H & _).
  rewrite H. reflexivity.
Defined.

End BatcherFacts.

(** ** Bulk writes *)

Section BulkFacts.
Context `{JsonText}.
Import Outcome.

Lemma classify_fold items : forall (fails : gmap string bool) (log : list string),
  let out := fold_left EsBulk.classify items (fails, log) in
  (forall id, is_Some (fst out !! id) <->
              is_Some (fails !! id) \/
              id ∈ map item_id (filter (fun it => retriable (item_status it) = true) items))
  /\ snd out = log ++ map (fun it => "Failed " +:+ item_id it +:+ " with " +:+ pretty (item_status it))
                          (filter (fun it => dropped (item_status it) = true) items).
Proof.
  induction items as [| it items IH]; intros fails log; cbn [fold_left].
  - cbn. split; [| now rewrite app_nil_r]. intros id. rewrite elem_of_nil. tauto.
  - assert (Heq : EsBulk.classify (fails, log) it =
      ((if retriable (item_status it) then <[item_id it := true]> fails else fails),
       (if dropped (item_status it)
        then log ++ ["Failed " +:+ item_id it +:+ " with " +:+ pretty (item_status it)]
        else log))).
    { unfold EsBulk.classify, dropped, retriable, item_status, item_id.
      destruct (_ =? 201) eqn:E1; cbn.
      - apply Z.eqb_eq in E1. rewrite E1. reflexivity.
      - destruct ((_ =? 429) || (_ =? 503)); cbn; [reflexivity |].
        destruct (_ =? 409); reflexivity. }
    rewrite Heq. specialize (IH (if retriable (item_status it) then <[item_id it := true]> fails else fails)
      (if dropped (item_status it)
       then log ++ ["Failed " +:+ item_id it +:+ " with " +:+ pretty (item_status it)]
       else log)).
    cbn in IH. destruct IH as [IHf IHl]. split.
    + intros id. rewrite IHf. rewrite !filter_cons.
      destruct (retriable (item_status it)) eqn:E.
      * rewrite decide_True by reflexivity. cbn [map]. rewrite elem_of_cons.
        destruct (decide (item_id it = id)) as [-> | Hne].
        -- rewrite lookup_insert_eq. split; intros _; [right; left; reflexivity | left; eauto].
        -- rewrite lookup_insert_ne by assumption. split; [tauto |].
           intros [? | [? | ?]]; [tauto | congruence | tauto].
      * rewrite decide_False by congruence. tauto.
    + rewrite IHl. rewrite !filter_cons.
      destruct (dropped (item_status it)) eqn:E.
      * rewrite decide_True by reflexivity. cbn [map]. now rewrite <- app_assoc.
      * rewrite decide_False by congruence. reflexivity.
Qed.

Lemma parseBulkFailures_decoded resp r :
  Decode.Unmarshal BulkResp.dec_t resp BulkResp.zero = (r, None) ->
  exists fails : gmap string bool,
    EsBulk.parseBulkFailures resp = (fails, None, failure_log r)
    /\ forall id, is_Some (fails !! id) <-> id ∈ failed_ids r.
Proof.
  intros Hd. unfold EsBulk.parseBulkFailures. rewrite Hd.
  unfold failure_log, failed_ids. destruct (BulkResp.Errors r).
  - pose proof (classify_fold (BulkResp.Items r) ∅ []) as [Hf Hl]. cbn in Hf, Hl.
    destruct (fold_left EsBulk.classify (BulkResp.Items r) (∅, [])) as [fails log].
    cbn in *. subst log. exists fails. split; [reflexivity |].
    intros id. rewrite Hf, lookup_empty. split; [intros [[? ?] | ?]; [discriminate | assumption] | tauto].
  - exists ∅. split; [reflexivity |]. intros id. rewrite lookup_empty, elem_of_nil.
    split; [intros [? ?]; discriminate | tauto].
Qed.

Lemma filter_ext_elem {A} (P Q : A -> Prop) `{!forall x, Decision (P x)} `{!forall x, Decision (Q x)}
      (l : list A) :
  (forall x, x ∈ l -> P x <-> Q x) -> filter P l = filter Q l.
Proof.
  induction l as [| x l IH]; intros Hpq; [reflexivity |].
  rewrite !filter_cons.
  assert (Hx : P x <-> Q x) by (apply Hpq; left).
  rewrite IH by (intros y Hy; apply Hpq; now right).
  destruct (decide (P x)), (decide (Q x)); tauto || reflexivity.
Qed.

(** What [Bulk] returns once the response is decoded: the records whose
    id the response reports as overloaded. *)
Lemma Bulk_by_id ops code status body r :
  code < 300 ->
  Decode.Unmarshal BulkResp.dec_t body BulkResp.zero = (r, None) ->
  EsBulk.Bulk ops (Http.Replied code status body)
  = (filter (fun op => Id op ∈ failed_ids r) ops, None, failure_log r).
Proof.
  intros Hc Hd. unfold EsBulk.Bulk, Http.readRequest.
  destruct (Z.geb_spec code 300) as [? | _]; [lia |].
  destruct (parseBulkFailures_decoded _ _ Hd) as (fails & -> & Hf).
  destruct (Z.ltb_spec 0 (Z.of_nat (size fails))) as [Hpos | Hzero].
  - f_equal. f_equal. apply filter_ext_elem. intros op _. apply Hf.
  - f_equal. f_equal. assert (fails = ∅) as -> by (apply map_size_empty_iff; lia).
    induction ops as [| op ops IH]; [reflexivity |].
    rewrite filter_cons, decide_False; [exact IH |].
    intros Hin. apply Hf in Hin. rewrite lookup_empty in Hin. destruct Hin; discriminate.
Qed.

End BulkFacts.

Section BulkByStatus.
Import Outcome.

Lemma NoDup_map_inj {A B} (f : A -> B) (l : list A) x y :
  NoDup (map f l) -> x ∈ l -> y ∈ l -> f x = f y -> x = y.
Proof.
  induction l as [| a l IH]; intros Hnd Hx Hy Hf; [inversion Hx |].
  cbn in Hnd. apply NoDup_cons in Hnd as [Hna Hnd].
  apply elem_of_cons in Hx as [-> | Hx]; apply elem_of_cons in Hy as [-> | Hy].
  - reflexivity.
  - exfalso. apply Hna. rewrite Hf. now apply (list_elem_of_fmap_2 f) in Hy.
  - exfalso. apply Hna. rewrite <- Hf. now apply (list_elem_of_fmap_2 f) in Hx.
  - now apply IH.
Qed.

Lemma filter_zip (P : Bulk -> Prop) `{!forall x, Decision (P x)} :
  forall (ops : list Bulk) (items : list BulkResp.item),
  length ops = length items ->
  (forall op it, (op, it) ∈ zip ops items -> P op <-> retriable (item_status it) = true) ->
  filter P ops
  = map fst (filter (fun p => retriable (item_status (snd p)) = true) (zip ops items)).
Proof.
  induction ops as [| op ops IH]; intros [| it items] Hlen Hp; try discriminate; [reflexivity |].
  cbn [zip zip_with]. rewrite !filter_cons. cbn [snd].
  assert (Hx : P op <-> retriable (item_status it) = true) by (apply Hp; left).
  rewrite (IH items); [| cbn in Hlen; lia | intros; apply Hp; now right].
  destruct (decide (P op)), (decide (retriable (item_status it) = true)); tauto || reflexivity.
Qed.

Lemma zip_elem_positions {A B} (l : list A) (k : list B) a b :
  (a, b) ∈ zip l k -> a ∈ l /\ b ∈ k.
Proof.
  revert k. induction l as [| x l IH]; intros [| y k] Hin; cbn in Hin; try (inversion Hin; fail).
  apply elem_of_cons in Hin as [Heq | Hin].
  - injection Heq as -> ->. split; left.
  - apply IH in Hin as [? ?]. split; now right.
Qed.

Lemma zip_same_key (ops : list Bulk) (items : list BulkResp.item) op it :
  map Id ops = map item_id items -> (op, it) ∈ zip ops items -> Id op = item_id it.
Proof.
  revert items. induction ops as [| x ops IH]; intros [| y items] Hm Hin; cbn in *;
    try (inversion Hin; fail).
  injection Hm as Hh Ht.
  apply elem_of_cons in Hin as [Heq | Hin]; [now injection Heq as -> -> | eauto].
Qed.

(** When the ids submitted are pairwise distinct and the response answers
    them in order, matching by id is matching by position. *)
Lemma by_id_is_by_status ops r :
  answers ops r -> NoDup (map Id ops) ->
  filter (fun op => Id op ∈ failed_ids r) ops = leftover_by_status ops r.
Proof.
  unfold answers, failed_ids, leftover_by_status. intros Ha Hnd.
  destruct (BulkResp.Errors r).
  - apply filter_zip.
    + rewrite <- (length_map Id ops), Ha. apply length_map.
    + intros op it Hin.
      pose proof (zip_same_key _ _ _ _ Ha Hin) as Hk.
      apply zip_elem_positions in Hin as [_ Hit].
      rewrite Hk. split.
      * intros Hmem. apply list_elem_of_fmap in Hmem as (it' & Hid & Hin').
        apply list_elem_of_filter in Hin' as [Hr Hin'].
        rewrite Ha in Hnd.
        now rewrite (NoDup_map_inj item_id _ it it' Hnd Hit Hin' Hid).
      * intros Hr. apply list_elem_of_fmap. exists it. split; [reflexivity |].
        apply list_elem_of_filter. now split.
  - clear. induction ops as [| op ops IH]; [reflexivity |].
    rewrite filter_cons, decide_False by (apply not_elem_of_nil). exact IH.
Qed.

End BulkByStatus.

Section BulkLeftover.
Context `{JsonText}.
Import Outcome.

(** C1 (amended).  When the bulk request is answered and the response
    decodes, [EsConn.Bulk] returns as leftover exactly the submitted records
    whose id the response reports with status 429 or 503 (none when the
    [errors] flag is unset), returns no error, and logs one line for each
    item whose status is none of 201, 409, 429 and 503.  Records are matched
    with response items by id alone; when the submitted ids are pairwise
    distinct and the response answers them in order, the leftover is exactly
    the records whose own status is 429 or 503, so that records answered
    with 201, 409 or any other status are not returned. *)
Theorem Bulk_leftover (ops : list Bulk) (code : Z) (status body : string) (r : BulkResp.t) :
  code < 300 ->
  Decode.Unmarshal BulkResp.dec_t body BulkResp.zero = (r, None) ->
  EsBulk.Bulk ops (Http.Replied code status body)
  = (filter (fun op => Id op ∈ failed_ids r) ops, None, failure_log r)
  /\ (answers ops r -> NoDup (map Id ops) ->
      fst (fst (EsBulk.Bulk ops (Http.Replied code status body))) = leftover_by_status ops r).
Proof.
  intros Hc Hd. pose proof (Bulk_by_id ops code status body r Hc Hd) as Hb.
  split; [exact Hb |]. intros Ha Hnd. rewrite Hb. cbn [fst].
  now apply by_id_is_by_status.
Qed.

End BulkLeftover.

(** A response in which four records are created, overloaded, duplicate
    and rejected. *)
Definition mixed_response : json :=
  JObj [("took", JNum "3"); ("errors", JBool true);
        ("items", JArr [
           JObj [("create", JObj [("_id", JStr "1"); ("status", JNum "201")])];
           JObj [("create", JObj [("_id", JStr "2"); ("status", JNum "429")])];
           JObj [("create", JObj [("_id", JStr "3"); ("status", JNum "409")])];
           JObj [("create", JObj [("_id", JStr "4"); ("status", JNum "400")])]])].

Definition mixed_ops : list Bulk :=
  [mkBulk "1" "t" "{}"; mkBulk "2" "t" "{}"; mkBulk "3" "t" "{}"; mkBulk "4" "t" "{}"].

Lemma Bulk_leftover_witness :
  EsBulk.Bulk (H := Json.text) mixed_ops (Http.Replied 200 "200 OK" (Json.print mixed_response))
  = ([mkBulk "2" "t" "{}"], None, ["Failed 4 with 400"]).
Proof.
  destruct (Bulk_leftover (H := Json.text) mixed_ops 200 "200 OK" (Json.print mixed_response)
              (BulkResp.mk true [BulkResp.mkItem (BulkResp.mkCreate "1" 201);
                                 BulkResp.mkItem (BulkResp.mkCreate "2" 429);
                                 BulkResp.mkItem (BulkResp.mkCreate "3" 409);
                                 BulkResp.mkItem (BulkResp.mkCreate "4" 400)])
              ltac:(lia) ltac:(vm_compute; reflexivity)) as [-> _].
  vm_compute. reflexivity.
Defined.

(** Two records of different types that share an id, the first answered
    with 429 and the second with 201. *)
Definition shared_id_ops : list Bulk := [mkBulk "1" "a" "{}"; mkBulk "1" "b" "{}"].

Definition shared_id_response : BulkResp.t :=
  BulkResp.mk true [BulkResp.mkItem (BulkResp.mkCreate "1" 429);
                    BulkResp.mkItem (BulkResp.mkCreate "1" 201)].

Definition shared_id_body : string :=
  Json.print
    (JObj [("errors", JBool true);
           ("items", JArr [
              JObj [("create", JObj [("_id", JStr "1"); ("status", JNum "429")])];
              JObj [("create", JObj [("_id", JStr "1"); ("status", JNum "201")])]])]).

(** C1 as stated fails: the record answered with 201 is returned as
    leftover along with the overloaded one, because it carries the same id. *)
Lemma Bulk_returns_created_record :
  Decode.Unmarshal (H := Json.text) BulkResp.dec_t shared_id_body BulkResp.zero
  = (shared_id_response, None)
  /\ Outcome.answers shared_id_ops shared_id_response
  /\ fst (fst (EsBulk.Bulk (H := Json.text) shared_id_ops (Http.Replied 200 "200 OK" shared_id_body)))
     = [mkBulk "1" "a" "{}"; mkBulk "1" "b" "{}"]
  /\ Outcome.leftover_by_status shared_id_ops shared_id_response = [mkBulk "1" "a" "{}"]
  /\ fst (fst (EsBulk.Bulk (H := Json.text) shared_id_ops (Http.Replied 200 "200 OK" shared_id_body)))
     <> Outcome.leftover_by_status shared_id_ops shared_id_response.
Proof.
  repeat split; try (vm_compute; reflexivity).
  vm_compute. discriminate.
Qed.

(** ** Ingestion *)

Section IngestFacts.
Context `{JsonText}.
Import Outcome Account.

Lemma response_of_Some reply r :
  response_of reply = Some r ->
  exists code status body,
    reply = Http.Replied code status body /\ code < 300
    /\ Decode.Unmarshal BulkResp.dec_t body BulkResp.zero = (r, None).
Proof.
  unfold response_of. destruct reply as [e | p e | code status body]; try discriminate.
  destruct (Z.geb_spec code 300); [discriminate |].
  destruct (Decode.Unmarshal _ _ _) as [r' [e |]] eqn:E; [discriminate |].
  intros [= ->]. exists code, status, body. repeat split; [lia | assumption].
Qed.






End IngestFacts.

Section IngestInvariant.
Context `{JsonText}.
Import Outcome Account Ingest.






End IngestInvariant.

Section IngestRun.
Context `{JsonText}.
Import Outcome Account Ingest.










End IngestRun.

Section IngestErrors.
Context `{JsonText}.
Import Outcome Account Ingest.








Lemma run_app evs1 : forall evs2 s, run s (evs1 ++ evs2) = s1 ← run s evs1; run s1 evs2.
Proof.
  induction evs1 as [| ev evs1 IH]; intros evs2 s; cbn; [reflexivity |].
  destruct (step s ev) as [s1 |]; cbn; [apply IH | reflexivity].
Qed.




End IngestErrors.

Section IngestAccounts.
Context `{JsonText}.
Import Outcome Account Ingest.






End IngestAccounts.

(** *** A run of two goroutines *)

(** The reply of a destination that answers the listed ids with the listed
    statuses. *)
Definition bulk_reply (errors : bool) (items : list (string * Z)) : Http.Reply :=
  Http.Replied 200 "200 OK"
    (Json.print
       (JObj [("took", JNum "1"); ("errors", JBool errors);
              ("items", JArr (map (fun it => JObj [("create",
                                     JObj [("_index", JStr "dst"); ("_id", JStr (fst it));
                                           ("status", JNum (pretty (snd it)))])]) items))])).

Definition rec1 : Bulk := mkBulk "1" "t" "{}".
Definition rec2 : Bulk := mkBulk "2" "t" "{}".
Definition rec3 : Bulk := mkBulk "3" "u" "{}".



(** *** A run that meets a refused connection *)




(** ** Extraction *)

Section ExtractFacts.
Context `{JsonText}.
Import Extract.















End ExtractFacts.

Section ExtractMalformed.
Context `{JsonText}.
Import Extract.

Lemma pages_loop_truncated t pre tail : forall b,
  (forall b', pages_loop t b' tail = (b', None, snd (pages_loop t b' tail))) ->
  fst (pages_loop t b (pre ++ tail)) = fst (pages_loop t b pre).
Proof.
  induction pre as [| reply pre IH]; intros b Htail; cbn [app pages_loop].
  - now rewrite Htail.
  - destruct (Next reply) as [hits err].
    destruct (negb _ && negb _); [| reflexivity].
    destruct (fold_left (put_hit t) hits (b, None)) as [b' [e |]]; [reflexivity |].
    now apply IH.
Qed.

(** C10.  A reply whose body was read but is not valid JSON makes [Next]
    return no hits and a nil error, exactly as a reply with the empty page
    does; the loop of [readBulk] stops there without a panic and without
    asking for the pages that remain, so that the collection is extracted
    as if its scroll had ended before the malformed reply. *)
Theorem Next_malformed_body (code : Z) (status data : string) :
  scan data = None ->
  Next (Http.Replied code status data) = ([], None)
  /\ (forall code' status' data',
        fst (Decode.Unmarshal dec_hits data' []) = [] ->
        Next (Http.Replied code' status' data') = Next (Http.Replied code status data))
  /\ (forall t b rest,
        pages_loop t b (Http.Replied code status data :: rest) = (b, None, rest))
  /\ (forall c t window bulkSize dest pre rest,
        pages c = pre ++ Http.Replied code status data :: rest ->
        readBulk c t window bulkSize dest
        = readBulk (mkCollection (opening c) pre) t window bulkSize dest).
Proof.
  intros Hbad.
  assert (Hnext : Next (Http.Replied code status data) = ([], None)).
  { unfold Next, Decode.Unmarshal. now rewrite Hbad. }
  assert (Hloop : forall t b rest,
             pages_loop t b (Http.Replied code status data :: rest) = (b, None, rest)).
  { intros t b rest. cbn [pages_loop]. now rewrite Hnext. }
  repeat split; try assumption.
  - intros code' status' data' Hempty. rewrite Hnext. unfold Next.
    destruct (Decode.Unmarshal dec_hits data' []) as [hits e]. cbn in Hempty. now subst hits.
  - intros c t window bulkSize dest pre rest Hpages. unfold readBulk. cbn [opening pages].
    destruct (NewScroll (opening c)) as [scroll [e |]]; [reflexivity |].
    rewrite Hpages.
    pose proof (pages_loop_truncated t pre (Http.Replied code status data :: rest)
                  (Batcher.new bulkSize dest)) as Ht.
    specialize (Ht ltac:(intros b'; now rewrite Hloop)).
    destruct (pages_loop t (Batcher.new bulkSize dest) (pre ++ _)) as [[b1 p1] u1].
    destruct (pages_loop t (Batcher.new bulkSize dest) pre) as [[b2 p2] u2].
    cbn in Ht. now injection Ht as -> ->.
Qed.

End ExtractMalformed.

(** *** Two collections of one document each *)

Definition scroll_opened : Http.Reply :=
  Http.Replied 200 "200 OK" (Json.print (JObj [("_scroll_id", JStr "c2Nhbjs2")])).

Definition page (ids : list string) : Http.Reply :=
  Http.Replied 200 "200 OK"
    (Json.print
       (JObj [("_scroll_id", JStr "c2Nhbjs2");
              ("hits", JObj [("total", JNum "1");
                             ("hits", JArr (map (fun id => JObj [("_id", JStr id);
                                                               ("_source", JObj [("n", JNum "1")])])
                                                ids))])])).


Definition doc1 : string := Json.print (JObj [("n", JNum "1")]).


(** *** A scroll whose second reply is cut short *)

Definition cut_short : string := "{" +:+ q +:+ "hits" +:+ q +:+ ":{" +:+ q +:+ "total" +:+ q +:+ ":3,".

Lemma Next_malformed_body_witness :
  Extract.Next (H := Json.text) (Http.Replied 200 "200 OK" cut_short) = ([], None)
  /\ Extract.readBulk (H := Json.text)
       (Extract.mkCollection scroll_opened
          [page ["1"; "2"]; Http.Replied 200 "200 OK" cut_short; page ["3"]; page []])
       "t" 10 2 []
     = ([[mkBulk "1" "t" doc1; mkBulk "2" "t" doc1]], None).
Proof.
  destruct (Next_malformed_body (H := Json.text) 200 "200 OK" cut_short
              ltac:(vm_compute; reflexivity)) as (Hn & _ & _ & Hr).
  split; [exact Hn |].
  rewrite (Hr (Extract.mkCollection scroll_opened
                 [page ["1"; "2"]; Http.Replied 200 "200 OK" cut_short; page ["3"]; page []])
              "t" 10 2 [] [page ["1"; "2"]] [page ["3"]; page []] eq_refl).
  vm_compute. reflexivity.
Defined.

(** ** The file record format *)

Section HeaderText.

Lemma app_cons c (s t : string) : String c s +:+ t = String c (s +:+ t).
Proof. reflexivity. Qed.

Lemma app_nil (t : string) : "" +:+ t = t.
Proof. reflexivity. Qed.

Lemma app_assoc_str (a b c : string) : (a +:+ b) +:+ c = a +:+ (b +:+ c).
Proof. induction a as [| x a IH]; [reflexivity |]. rewrite !app_cons. f_equal; exact IH. Qed.




(** A literal made of plain characters is read back as it is. *)
Lemma string_lit_plain s rest :
  plain s = true ->
  Json.string_lit None (s +:+ String Json.quote rest) = Some (s, rest).
Proof.
  induction s as [| c s IH]; intros Hp; [reflexivity |].
  cbn [plain all_bytes] in Hp. apply andb_prop in Hp as [Hc Hs].
  rewrite app_cons. cbn [Json.string_lit].
  unfold plain_byte in Hc.
  apply andb_prop in Hc as [Hc H92]. apply andb_prop in Hc as [Hc H34].
  apply andb_prop in Hc as [H32 H127].
  unfold Json.is_byte.
  apply negb_true_iff in H34, H92. rewrite H34, H92.
  assert (Hlt : (Json.code c <? 32) = false) by (apply Z.ltb_ge; apply Z.leb_le in H32; lia).
  rewrite Hlt. rewrite (IH Hs). reflexivity.
Qed.






(** Read the literal of the known key [k]. *)
Ltac key k :=
  match goal with
  | |- context [Json.string_lit None ?x] =>
    let r := fresh "r" in
    evar (r : string);
    let r' := eval unfold r in r in
    unify x (k +:+ String Json.quote r');
    change (Json.string_lit None x) with (Json.string_lit None (k +:+ String Json.quote r'));
    clear r;
    rewrite (string_lit_plain k) by (vm_compute; reflexivity)
  end.








End HeaderText.




(** ** Index metadata *)

Section MetaCodec.
Import Decode Meta.

Lemma fold_insert_list_to_map {V} (l : list (string * V)) : forall (acc : gmap string V),
  NoDup l.*1 ->
  fold_left (fun acc kv => <[fst kv := snd kv]> acc) l acc = list_to_map l ∪ acc.
Proof.
  induction l as [| [k v] l IH]; intros acc Hnd; cbn [fold_left list_to_map foldr fst snd].
  - now rewrite (left_id_L ∅ (∪)).
  - cbn in Hnd. apply NoDup_cons in Hnd as [Hk Hnd].
    rewrite (IH _ Hnd). cbn. rewrite <- insert_union_l. symmetry. apply insert_union_r.
    now apply not_elem_of_list_to_map_1.
Qed.

(** Decoding what was marshalled from a map gives the map back, when
    that holds of its elements. *)
Lemma dec_map_enc_map {V} (what : string) (zero : V) (elem : dec V) (enc : V -> json)
      (m : gmap string V) (cur : option (gmap string V)) :
  (forall v, elem (enc v) zero = (v, None)) ->
  default ∅ cur = ∅ ->
  dec_map what zero elem (enc_map enc (Some m)) cur = (Some m, None).
Proof.
  intros Helem Hcur. unfold dec_map, enc_map. rewrite Hcur.
  set (sorted := merge_sort _ (map_to_list m)).
  assert (Hperm : sorted ≡ₚ map_to_list m) by apply merge_sort_Permutation.
  assert (Hnd : NoDup sorted.*1).
  { rewrite Hperm. apply NoDup_fst_map_to_list. }
  assert (Hfold : forall (l : list (string * V)) (acc : gmap string V),
             fold_left (fun acc kv =>
                          let '(x, e') := elem (snd kv) zero in
                          (<[fst kv := x]> (fst acc), first_err (snd acc) e'))
                       (map (fun kv => (fst kv, enc (snd kv))) l) (acc, None)
             = (fold_left (fun acc kv => <[fst kv := snd kv]> acc) l acc, None)).
  { induction l as [| [k v] l IH]; intros acc; cbn [map fold_left fst snd]; [reflexivity |].
    rewrite Helem. cbn [first_err]. apply IH. }
  rewrite Hfold, fold_insert_list_to_map by assumption.
  rewrite (right_id_L ∅ (∪)).
  rewrite (list_to_map_proper sorted (map_to_list m) Hnd Hperm), list_to_map_to_list.
  reflexivity.
Qed.

Lemma dec_anymap_enc (m : option (gmap string json)) :
  dec_anymap (enc_map id m) None = (m, None).
Proof.
  destruct m as [m |]; [| reflexivity].
  apply dec_map_enc_map; reflexivity.
Qed.

Lemma dec_settings_enc s cur : dec_settings (enc_settings s) cur = (s, None).
Proof. destruct s, cur. vm_compute. reflexivity. Qed.

(** Evaluate the name tests on the keys that are known. *)
Ltac names_tests :=
  repeat match goal with
  | |- context [Json.names ?k ?n] =>
    let v := eval vm_compute in (Json.names k n) in
    lazymatch v with
    | true => change (Json.names k n) with true
    | false => change (Json.names k n) with false
    end
  end.

Lemma dec_IndexSettings_index js :
  dec_IndexSettings (JObj [("index", js)]) (mkIndexSettings zero_settings)
  = (mkIndexSettings (fst (dec_settings js zero_settings)), snd (dec_settings js zero_settings)).
Proof.
  unfold dec_IndexSettings, dec_struct. cbn [fold_left]. names_tests.
  lazy beta iota delta [fst snd Index' first_err].
  now destruct (dec_settings js zero_settings) as [v [e |]].
Qed.

(** Decoding an object that has the four members of an index, once each. *)
Lemma dec_Index_members ja jm js jw :
  dec_Index (JObj [("aliases", ja); ("mappings", jm); ("settings", JObj [("index", js)]);
                   ("warmers", jw)]) zero
  = (mkIndex (fst (dec_anymap ja None)) (fst (dec_anymap jm None))
             (mkIndexSettings (fst (dec_settings js zero_settings)))
             (fst (dec_anymap jw None)),
     first_err (first_err (first_err (snd (dec_anymap ja None)) (snd (dec_anymap jm None)))
                          (snd (dec_settings js zero_settings)))
               (snd (dec_anymap jw None))).
Proof.
  unfold dec_Index, dec_struct. cbn [fold_left]. names_tests.
  lazy beta iota delta [fst snd zero Aliases Mappings Settings Warmers].
  destruct (dec_anymap ja None) as [a ea].
  lazy beta iota delta [fst snd zero Aliases Mappings Settings Warmers].
  destruct (dec_anymap jm None) as [m em].
  lazy beta iota delta [fst snd zero Aliases Mappings Settings Warmers].
  rewrite dec_IndexSettings_index.
  destruct (dec_settings js zero_settings) as [s es].
  lazy beta iota delta [fst snd zero Aliases Mappings Settings Warmers].
  destruct (dec_anymap jw None) as [w ew].
  reflexivity.
Qed.

Lemma dec_Index_enc x : dec_Index (enc_Index x) zero = (x, None).
Proof.
  destruct x as [al mp [st] wm]. unfold enc_Index.
  cbn [Aliases Mappings Settings Warmers Index'].
  rewrite dec_Index_members, !dec_anymap_enc, dec_settings_enc. reflexivity.
Qed.

Lemma dec_meta_enc (m : gmap string Index) :
  dec_meta (enc_meta (Some m)) (Some ∅) = (Some m, None).
Proof. apply dec_map_enc_map; [apply dec_Index_enc | reflexivity]. Qed.

End MetaCodec.

Section MetaFacts.
Context {T : JsonText} {R : MapRange}.
Import Decode Meta.

Lemma range_empty {V} : range (∅ : gmap string V) = [].
Proof.
  apply Permutation_nil_r. rewrite (range_keys V ∅), map_to_list_empty. reflexivity.
Qed.

Lemma range_singleton {V} k (x : V) : range ({[k := x]} : gmap string V) = [k].
Proof.
  apply Permutation_singleton_r. rewrite (range_keys V {[k := x]}), map_to_list_singleton.
  reflexivity.
Qed.

Lemma range_nil_empty {V} (m : gmap string V) : range m = [] -> m = ∅.
Proof.
  intros Hr. pose proof (range_keys V m) as Hp. rewrite Hr in Hp.
  apply Permutation_nil_l in Hp. symmetry in Hp. apply fmap_nil_inv in Hp.
  now apply map_to_list_empty_iff.
Qed.

Lemma range_elem {V} (m : gmap string V) k : k ∈ range m <-> is_Some (m !! k).
Proof.
  rewrite (range_keys V m). rewrite list_elem_of_fmap. split.
  - intros ([k' v] & -> & Hin). apply elem_of_map_to_list in Hin. eauto.
  - intros [v Hv]. exists (k, v). split; [reflexivity |]. now apply elem_of_map_to_list.
Qed.

Lemma last_key_singleton k x : last_key (Some {[k := x]}) = k.
Proof. unfold last_key, keys_of. now rewrite range_singleton. Qed.

Lemma at_key_no_keys meta : keys_of meta = [] -> at_key meta (last_key meta) = zero.
Proof.
  unfold at_key, last_key. destruct meta as [m |]; cbn; [| reflexivity].
  intros Hr. rewrite (range_nil_empty m Hr). now rewrite lookup_empty.
Qed.

Lemma last_key_visited meta : keys_of meta <> [] -> last_key meta ∈ keys_of meta.
Proof.
  unfold last_key. intros Hne.
  destruct (last (keys_of meta)) as [k |] eqn:E.
  - cbn. apply last_Some in E as [l' ->]. apply elem_of_app. right. left.
  - apply last_None in E. contradiction.
Qed.

(** What [PutIndex] does once the blob is decoded. *)
Lemma PutIndex_decoded this metaString repls shards reply meta :
  Unmarshal dec_meta metaString (Some ∅) = (meta, None) ->
  PutIndex this metaString repls shards reply
  = (mkEsConn (hostPrefix this) (path this) (keys_of (Mappings (at_key meta (last_key meta)))),
     Some (Http.mkRequest "PUT" (hostPrefix this +:+ path this)
                          (spell (enc_Index (PutIndex_value meta repls shards)))),
     snd (Http.readRequest reply)).
Proof.
  intros Hd. unfold PutIndex. rewrite Hd. cbn [hostPrefix path].
  now destruct (Http.readRequest reply) as [body e].
Qed.

(** C9 (amended).  [PutIndex] does not look at the number of top-level
    keys of the metadata blob.  Whenever the blob decodes, it writes: one
    PUT request to the index, carrying the metadata found under the key
    that the iteration over the decoded map visits last, which is one of
    the keys when there are several and is the zero-valued metadata (with
    the aliases cleared) when there is none; and it returns whatever error
    that request ends with, nil when the request succeeds. *)
Theorem PutIndex_any_key_count (this : EsConn) (metaString : string) (repls shards : Z)
        (reply : Http.Reply) (meta : option (gmap string Index)) :
  Unmarshal dec_meta metaString (Some ∅) = (meta, None) ->
  snd (fst (PutIndex this metaString repls shards reply))
  = Some (Http.mkRequest "PUT" (hostPrefix this +:+ path this)
                         (spell (enc_Index (PutIndex_value meta repls shards))))
  /\ snd (PutIndex this metaString repls shards reply) = snd (Http.readRequest reply)
  /\ (keys_of meta = [] -> PutIndex_value meta (-1) (-1) = clear_aliases zero)
  /\ (keys_of meta <> [] -> last_key meta ∈ keys_of meta).
Proof.
  intros Hd. rewrite (PutIndex_decoded _ _ _ _ _ _ Hd). cbn [fst snd].
  repeat split.
  - intros Hk. unfold PutIndex_value. cbn. now rewrite (at_key_no_keys meta Hk).
  - apply last_key_visited.
Qed.

(** The settings that [PutIndex] writes, at negative and at non-negative
    [repls]. *)
Lemma PutIndex_value_settings meta repls shards :
  let source := Index' (Settings (at_key meta (last_key meta))) in
  let written := Index' (Settings (PutIndex_value meta repls shards)) in
  NumRepls written = (if repls >=? 0 then pretty repls else NumRepls source)
  /\ NumShards written = (if repls >=? 0 then pretty shards else NumShards source)
  /\ Aliases (PutIndex_value meta repls shards) = Some ∅.
Proof.
  unfold PutIndex_value. destruct (repls >=? 0); cbn; repeat split; reflexivity.
Qed.

(** C5 (amended).  For a source whose metadata has a single top-level index
    and decodes, [GetIndex] followed by [PutIndex] with both overrides
    negative writes the metadata as decoded from the source, with the
    aliases cleared: the settings block written holds exactly the nine
    index settings that [IndexSettings] declares, each with the value
    decoded from the source.  (The text returned by [GetIndex] is assumed
    to scan as the document that was marshalled.) *)
Theorem GetIndex_PutIndex_settings (this there : EsConn) (code : Z) (status data : string)
        (name : string) (idx : Index) (reply : Http.Reply) :
  code < 400 ->
  Unmarshal dec_meta data (Some ∅) = (Some {[name := idx]}, None) ->
  scan (spell (enc_meta (Some {[name := clear_aliases idx]})))
  = Some (enc_meta (Some {[name := clear_aliases idx]})) ->
  snd (GetIndex this (Http.Replied code status data))
  = Got (spell (enc_meta (Some {[name := clear_aliases idx]})))
  /\ snd (fst (PutIndex there (spell (enc_meta (Some {[name := clear_aliases idx]}))) (-1) (-1) reply))
     = Some (Http.mkRequest "PUT" (hostPrefix there +:+ path there)
               (spell (JObj [("aliases", JObj []);
                             ("mappings", enc_map id (Mappings idx));
                             ("settings", JObj [("index", enc_settings (Index' (Settings idx)))]);
                             ("warmers", enc_map id (Warmers idx))]))).
Proof.
  intros Hc Hd Hs. split.
  - unfold GetIndex. rewrite Hd. rewrite last_key_singleton.
    unfold at_key. cbn [mbind option_bind]. rewrite lookup_singleton_eq. cbn [default].
    rewrite insert_singleton_eq.
    destruct (Z.geb_spec code 400); [lia | reflexivity].
  - assert (Hd' : Unmarshal dec_meta (spell (enc_meta (Some {[name := clear_aliases idx]}))) (Some ∅)
                  = (Some {[name := clear_aliases idx]}, None)).
    { unfold Unmarshal. rewrite Hs. apply dec_meta_enc. }
    rewrite (PutIndex_decoded _ _ _ _ _ _ Hd'). cbn [fst snd]. do 3 f_equal.
    unfold PutIndex_value. rewrite last_key_singleton.
    unfold at_key. cbn [mbind option_bind]. rewrite lookup_singleton_eq. reflexivity.
Qed.

End MetaFacts.

(** *** The metadata of an index with an undeclared setting *)

Definition source_settings : json :=
  JObj [("index", JObj [("creation_date", JStr "1400000000"); ("number_of_shards", JStr "5");
                        ("number_of_replicas", JStr "1"); ("uuid", JStr "abc");
                        ("version", JObj [("created", JStr "1000099")])])].

Definition source_index : json :=
  JObj [("aliases", JObj [("recent", JObj [])]);
        ("mappings", JObj [("tweet", JObj [("properties", JObj [])]); ("user", JObj [])]);
        ("settings", source_settings);
        ("warmers", JObj [])].

Definition source_meta : string := Json.print (JObj [("tweets", source_index)]).

Definition decoded_index : Meta.Index :=
  Meta.mkIndex (Some {["recent" := JObj []]})
               (Some (<["tweet" := JObj [("properties", JObj [])]]> {["user" := JObj []]}))
               (Meta.mkIndexSettings
                  (Meta.mkSettings JNull "5" "1" JNull JNull JNull JNull (JStr "abc")
                                   (JObj [("created", JStr "1000099")])))
               (Some ∅).

Definition src_es : Meta.EsConn := Meta.mkEsConn "http://es1:9200" "/tweets" [].
Definition dst_es : Meta.EsConn := Meta.mkEsConn "http://es2:9200" "/copy" [].
Definition created : Http.Reply := Http.Replied 200 "200 OK" "{}".

(** The document that [PutIndex] writes when fed the result of [GetIndex]
    on the body [data]. *)
Definition written_by (data : string) (repls shards : Z) : option json :=
  match snd (Meta.GetIndex (T := Json.text) (R := Meta.listed_range) src_es
               (Http.Replied 200 "200 OK" data)) with
  | Meta.Got blob =>
    req ← snd (fst (Meta.PutIndex (T := Json.text) (R := Meta.listed_range) dst_es blob
                      repls shards created));
    Json.parse (Http.body req)
  | _ => None
  end.

Lemma GetIndex_PutIndex_settings_witness :
  (written_by source_meta (-1) (-1) ≫= index_settings)
  = Some (Meta.enc_settings (Meta.Index' (Meta.Settings decoded_index))).
Proof.
  destruct (GetIndex_PutIndex_settings (T := Json.text) (R := Meta.listed_range)
              src_es dst_es 200 "200 OK" source_meta "tweets" decoded_index created
              ltac:(lia) ltac:(vm_compute; reflexivity) ltac:(vm_compute; reflexivity))
    as [Hget Hput].
  unfold written_by. rewrite Hget, Hput. vm_compute. reflexivity.
Defined.

(** C5 as stated fails: a setting of the source that [IndexSettings] does
    not declare is not written to the destination, and the settings block
    written differs from the source's. *)
Lemma GetIndex_PutIndex_drops_setting :
  (member "index" source_settings ≫= member "creation_date") = Some (JStr "1400000000")
  /\ ((written_by source_meta (-1) (-1) ≫= index_settings) ≫= member "creation_date") = None
  /\ (written_by source_meta (-1) (-1) ≫= member "settings") <> Some source_settings.
Proof.
  repeat split; try (vm_compute; reflexivity).
  vm_compute. discriminate.
Qed.

(** C6: the override of the number of shards is guarded by [repls], not by
    [shards].  In general the number of shards written is [shards] exactly
    when [repls] is not negative; on the metadata above, asking for three
    shards without a replica override leaves the five shards of the source,
    and asking for no replicas without a shard override writes the number
    of shards [-1]. *)
Theorem PutIndex_shards_follow_repls :
  (forall (R : MapRange) (meta : option (gmap string Meta.Index)) (repls shards : Z),
      Meta.NumShards (Meta.Index' (Meta.Settings (Meta.PutIndex_value meta repls shards)))
      = if repls >=? 0 then pretty shards
        else Meta.NumShards (Meta.Index' (Meta.Settings (Meta.at_key meta (Meta.last_key meta)))))
  /\ ((written_by source_meta (-1) 3 ≫= index_settings) ≫= member "number_of_shards")
     = Some (JStr "5")
  /\ ((written_by source_meta 0 (-1) ≫= index_settings) ≫= member "number_of_shards")
     = Some (JStr "-1").
Proof.
  split.
  - intros R meta repls shards. apply (PutIndex_value_settings (R := R) meta repls shards).
  - split; vm_compute; reflexivity.
Qed.

(** *** Metadata without an index, and with two *)

Definition two_indices : string :=
  Json.print (JObj [("tweets", source_index); ("users", JObj [("mappings", JObj [("user", JObj [])])])]).

Lemma PutIndex_any_key_count_witness :
  snd (fst (Meta.PutIndex (T := Json.text) (R := Meta.listed_range) dst_es "{}" (-1) (-1) created))
  = Some (Http.mkRequest "PUT" "http://es2:9200/copy"
            (Json.print (Meta.enc_Index (Meta.clear_aliases Meta.zero))))
  /\ snd (Meta.PutIndex (T := Json.text) (R := Meta.listed_range) dst_es "{}" (-1) (-1) created)
     = None.
Proof.
  destruct (PutIndex_any_key_count (T := Json.text) (R := Meta.listed_range)
              dst_es "{}" (-1) (-1) created (Some ∅) ltac:(vm_compute; reflexivity))
    as (Hreq & Herr & Hzero & _).
  rewrite (Hzero eq_refl) in Hreq. rewrite Hreq, Herr. split; reflexivity.
Defined.

(** C9 as stated fails: metadata with no top-level key, and metadata with
    two, are written to the destination, and [PutIndex] returns nil. *)
Lemma PutIndex_writes_any_key_count :
  (exists req,
     Meta.PutIndex (T := Json.text) (R := Meta.listed_range) dst_es "{}" (-1) (-1) created
     = (dst_es, Some req, None))
  /\ (exists req,
        Meta.PutIndex (T := Json.text) (R := Meta.listed_range) dst_es two_indices (-1) (-1) created
        = (Meta.mkEsConn "http://es2:9200" "/copy" ["user"; "tweet"], Some req, None)).
Proof.
  split; eexists; vm_compute; reflexivity.
Qed.

(** ** The flat-file adapter *)

Section FileFacts.
Import FileFlow.

Lemma length_app_str (a b : string) :
  String.length (a +:+ b) = (String.length a + String.length b)%nat.
Proof.
  induction a as [| c a IH]; [reflexivity |].
  rewrite app_cons. cbn [String.length]. now rewrite IH.
Qed.

Lemma app_nil_r_str (a : string) : a +:+ "" = a.
Proof. induction a as [| c a IH]; [reflexivity |]. rewrite app_cons. now rewrite IH. Qed.

Lemma stored_app rs rs' : stored (rs ++ rs') = stored rs +:+ stored rs'.
Proof.
  induction rs as [| b rs IH]; [reflexivity |].
  cbn [app stored fold_right]. fold (stored (rs ++ rs')). fold (stored rs).
  now rewrite IH, app_assoc_str.
Qed.

Lemma store_batch_written batch : forall file,
  store_batch file batch [] = (file +:+ stored batch, None, []).
Proof.
  induction batch as [| b batch IH]; intros file; cbn [store_batch stored fold_right].
  - now rewrite app_nil_r_str.
  - cbn [next_outcome write]. rewrite IH. fold (stored batch). now rewrite app_assoc_str.
Qed.

Lemma AcceptFrom_written parallel src : forall file,
  AcceptFrom parallel src file [] = (file +:+ stored (concat src), None).
Proof.
  induction src as [| batch src IH]; intros file; cbn [AcceptFrom concat].
  - now rewrite app_nil_r_str.
  - rewrite store_batch_written, IH, stored_app. now rewrite app_assoc_str.
Qed.


Lemma ParseBulk_empty `{JsonText} : File.ParseBulk "" = (mkBulk "" "" "", Some File.io_EOF, "").
Proof. reflexivity. Qed.




End FileFacts.

Section FileRoundTrip.
Import FileFlow.

Lemma read_until_length delim src line rest :
  File.read_until delim src = Some (line, rest) ->
  src = line +:+ rest /\ (1 <= String.length line)%nat.
Proof.
  revert line rest. induction src as [| c src IH]; intros line rest; cbn [File.read_until].
  - discriminate.
  - destruct (Ascii.eqb c delim).
    + intros [= <- <-]. split; [reflexivity | cbn; lia].
    + destruct (File.read_until delim src) as [[l r] |]; [| discriminate].
      cbn. intros [= <- <-]. destruct (IH l r eq_refl) as [-> Hl].
      split; [reflexivity | cbn; lia].
Qed.

(** A round of [ParseBulk] that ends without an error has consumed input. *)
Lemma ParseBulk_consumes `{JsonText} src bulk src' :
  File.ParseBulk src = (bulk, None, src') ->
  (String.length src' < String.length src)%nat.
Proof.
  unfold File.ParseBulk, File.ReadBytes.
  destruct (File.read_until Json.newline src) as [[op src1] |] eqn:E1; [| discriminate].
  destruct (Decode.Unmarshal File.dec_bulkOp op ("", "")) as [bulkOp [e |]]; [discriminate |].
  destruct (File.read_until Json.newline src1) as [[item src2] |] eqn:E2; [| discriminate].
  intros [= _ <-].
  apply read_until_length in E1 as [-> H1], E2 as [-> H2].
  rewrite !length_app_str. lia.
Qed.

Lemma records_loop_total `{JsonText} fuel : forall src batcher,
  (String.length src < fuel)%nat -> is_Some (records_loop fuel src batcher).
Proof.
  induction fuel as [| fuel IH]; intros src batcher Hfuel; [lia |].
  cbn [records_loop].
  destruct (File.ParseBulk src) as [[bulk [e |]] src'] eqn:E.
  - destruct (String.eqb e File.io_EOF); eauto.
  - apply IH. apply ParseBulk_consumes in E. lia.
Qed.

(** X1.  [FileSource.StreamTo] ends on every file, with the channel
    closed: the loop needs no more rounds than the file has bytes. *)
Theorem FileSource_StreamTo_ends `{JsonText} (src : File.reader) (window bulkSize : Z) :
  exists st, StreamTo src window bulkSize = Some st /\ Extract.closed st = true.
Proof.
  unfold StreamTo.
  destruct (records_loop_total (S (String.length src)) src (Batcher.new bulkSize [])
              ltac:(lia)) as [[batcher p] ->].
  cbn. eauto.
Qed.



End FileRoundTrip.

Section FileEdges.
Import FileFlow.








Lemma store_batch_until_failure batch : forall file k n e script b after,
  batch = k ++ b :: after ->
  store_batch file batch (replicate (length k) Written ++ Short n e :: script)
  = (file +:+ stored k +:+ take_bytes n (Store b), Some e, script).
Proof.
  induction batch as [| x batch IH]; intros file k n e script b after Heq.
  - destruct k; discriminate.
  - destruct k as [| y k]; cbn in Heq; injection Heq as -> ->.
    + cbn. reflexivity.
    + cbn [length replicate app store_batch next_outcome write stored fold_right].
      fold (stored k). rewrite (IH _ k n e script b after eq_refl).
      now rewrite !app_assoc_str.
Qed.

Lemma AcceptFrom_flat parallel src : forall file script,
  AcceptFrom parallel src file script
  = (fst (fst (store_batch file (concat src) script)), snd (fst (store_batch file (concat src) script))).
Proof.
  induction src as [| batch src IH]; intros file script; cbn [AcceptFrom concat]; [reflexivity |].
  revert file script. induction batch as [| b batch IHb]; intros file script.
  - cbn [store_batch app]. apply IH.
  - cbn [store_batch app]. destruct (next_outcome script) as [o script'].
    destruct (write file (Store b) o) as [file' [e |]]; [reflexivity |]. apply IHb.
Qed.

(** X5.  [FileSink.AcceptFrom] stops at the first write that fails and
    returns its error: the file then holds the records before it, whole, and
    what the failed write got out of the record it was writing; no later
    record is written. *)
Theorem FileSink_stops_at_failed_write (parallel : Z) (src : list (list Bulk)) (file : string)
        (before after : list Bulk) (b : Bulk) (n : nat) (e : error) (script : list outcome) :
  concat src = before ++ b :: after ->
  AcceptFrom parallel src file (replicate (length before) Written ++ Short n e :: script)
  = (file +:+ stored before +:+ take_bytes n (Store b), Some e).
Proof.
  intros Hsrc. rewrite AcceptFrom_flat.
  now rewrite (store_batch_until_failure _ file before n e script b after Hsrc).
Qed.

Lemma FileSink_stops_at_failed_write_witness :
  AcceptFrom 1 [[rec1]; [rec2; rec3]] "" [Written; Short 3 "no space left on device"]
  = (stored [rec1] +:+ "{ " +:+ q, Some "no space left on device").
Proof.
  exact (FileSink_stops_at_failed_write 1 [[rec1]; [rec2; rec3]] "" [rec1] [rec3] rec2 3
           "no space left on device" [] eq_refl).
Defined.

End FileEdges.

(** ** More on the batcher *)

Section BatcherEdges.
Import Batcher.

Lemma Flush_contents b :
  concat (dest (Flush b)) = concat (dest b) ++ batch b /\ batch (Flush b) = [].
Proof.
  destruct (Flush_dest b) as [Hd Hb]. split; [| assumption].
  rewrite Hd, concat_app. f_equal.
  destruct (decide (batch b = [])) as [-> | _]; cbn; [reflexivity | apply app_nil_r].
Qed.

(** X6.  Whatever the capacity and whatever was sent before, the batcher
    loses, repeats and reorders nothing: after any sequence of [Put] calls
    and a [Flush], the batches on the channel, one after the other, are
    those that were there followed by the buffered and the put records, and
    the buffer is empty. *)
Theorem Batcher_keeps_records (b : Batcher.t) (rs : list Bulk) :
  concat (dest (Flush (PutAll b rs))) = concat (dest b) ++ batch b ++ rs
  /\ batch (Flush (PutAll b rs)) = [].
Proof.
  destruct (Flush_contents (PutAll b rs)) as [Hc Hb]. split; [| assumption].
  rewrite Hc. apply PutAll_contents.
Qed.

Lemma PutAll_unbounded n rs : forall b,
  size b = n -> n <= 0 ->
  dest (PutAll b rs) = dest b /\ batch (PutAll b rs) = batch b ++ rs /\ size (PutAll b rs) = n.
Proof.
  induction rs as [| r rs IH]; intros b Hs Hn; cbn [PutAll fold_left].
  - now rewrite app_nil_r.
  - assert (Hput : Put b r = {| batch := batch b ++ [r]; size := size b; dest := dest b |}).
    { unfold Put. cbn [batch size dest]. rewrite length_app. cbn [length].
      destruct (Z.eqb_spec (Z.of_nat (length (batch b) + 1)) (size b)); [lia | reflexivity]. }
    fold (PutAll (Put b r) rs). rewrite Hput.
    destruct (IH {| batch := batch b ++ [r]; size := size b; dest := dest b |} Hs Hn)
      as (Hd & Hb & Hsz).
    cbn [batch size dest] in *. rewrite Hd, Hb, <- app_assoc. auto.
Qed.

(** X7.  With a capacity of zero or less the batcher never sends from
    within [Put]: the buffer grows without bound, and [Flush] sends all the
    records put as one batch (or nothing, when none was put). *)
Theorem Batcher_without_capacity (bulkSize : Z) (rs : list Bulk) :
  bulkSize <= 0 ->
  dest (PutAll (new bulkSize []) rs) = []
  /\ batch (PutAll (new bulkSize []) rs) = rs
  /\ dest (Flush (PutAll (new bulkSize []) rs)) = (if decide (rs = []) then [] else [rs]).
Proof.
  intros Hn.
  destruct (PutAll_unbounded bulkSize rs (new bulkSize []) eq_refl Hn) as (Hd & Hb & _).
  cbn [new dest batch app] in Hd, Hb. repeat split; try assumption.
  destruct (Flush_dest (PutAll (new bulkSize []) rs)) as [-> _]. now rewrite Hd, Hb.
Qed.

Lemma Batcher_without_capacity_witness :
  dest (Flush (PutAll (new 0 []) [rec1; rec2; rec3])) = [[rec1; rec2; rec3]].
Proof.
  destruct (Batcher_without_capacity 0 [rec1; rec2; rec3] ltac:(lia)) as (_ & _ & H).
  exact H.
Defined.

End BatcherEdges.

(** ** More on bulk writes *)

Section BulkEdges.
Context `{JsonText}.
Import Outcome Account.

Lemma response_of_None reply :
  response_of reply = None ->
  exists e, EsBulk.Bulk [] reply = ([], Some e, []) /\
            forall ops, EsBulk.Bulk ops reply = ([], Some e, []).
Proof.
  unfold response_of, EsBulk.Bulk, Http.readRequest.
  destruct reply as [e | p e | code status body].
  - intros _. exists e. split; [reflexivity | intros; reflexivity].
  - intros _. exists e. split; [reflexivity | intros; reflexivity].
  - destruct (Z.geb_spec code 300) as [Hc | Hc].
    + intros _. eexists. split; [reflexivity | intros; reflexivity].
    + unfold EsBulk.parseBulkFailures.
      destruct (Decode.Unmarshal BulkResp.dec_t body BulkResp.zero) as [r [e |]];
        [| discriminate].
      intros _. exists e. split; [reflexivity | intros; reflexivity].
Qed.

(** X8.  [Bulk] returns a nil error exactly when the request was answered
    with a status below 300 and a body that decodes as a bulk response.  In
    every other case (the request failed, the body could not be read, the
    status is 300 or more, the body does not decode) it returns the error
    with no leftover at all and logs nothing, whatever was submitted. *)
Theorem Bulk_error_cases (ops : list Bulk) (reply : Http.Reply) :
  (snd (fst (EsBulk.Bulk ops reply)) = None <-> is_Some (response_of reply))
  /\ (forall e, snd (fst (EsBulk.Bulk ops reply)) = Some e ->
                EsBulk.Bulk ops reply = ([], Some e, [])).
Proof.
  destruct (response_of reply) as [r |] eqn:Hr.
  - destruct (response_of_Some reply r Hr) as (code & status & body & -> & Hc & Hd).
    rewrite (Bulk_by_id ops code status body r Hc Hd). cbn [fst snd]. split.
    + split; eauto.
    + discriminate.
  - destruct (response_of_None reply Hr) as (e & _ & Hall). rewrite (Hall ops). cbn [fst snd].
    split.
    + split; [discriminate | intros [? ?]; discriminate].
    + now intros e' [= <-].
Qed.

(** X9.  Whatever the destination answers, the leftover that [Bulk]
    returns is a selection of the submitted records in their order: a retry
    never submits a record that was not submitted before, and never more
    often. *)
Theorem Bulk_leftover_sublist (ops : list Bulk) (reply : Http.Reply) :
  sublist (fst (fst (EsBulk.Bulk ops reply))) ops.
Proof.
  destruct (response_of reply) as [r |] eqn:Hr.
  - destruct (response_of_Some reply r Hr) as (code & status & body & -> & Hc & Hd).
    rewrite (Bulk_by_id ops code status body r Hc Hd). cbn [fst]. apply sublist_filter.
  - destruct (response_of_None reply Hr) as (e & _ & Hall). rewrite (Hall ops). cbn [fst].
    apply sublist_nil_l.
Qed.

(** X10.  [Bulk] trusts the [errors] flag of the response: when it is
    unset, no record is returned for a retry and no line is logged, whatever
    the statuses of the items say. *)
Theorem Bulk_trusts_errors_flag (ops : list Bulk) (reply : Http.Reply) (r : BulkResp.t) :
  response_of reply = Some r ->
  BulkResp.Errors r = false ->
  EsBulk.Bulk ops reply = ([], None, []).
Proof.
  intros Hr He.
  destruct (response_of_Some reply r Hr) as (code & status & body & -> & Hc & Hd).
  rewrite (Bulk_by_id ops code status body r Hc Hd).
  unfold failed_ids, failure_log. rewrite He. f_equal. f_equal.
  induction ops as [| op ops IH]; [reflexivity |].
  rewrite filter_cons, decide_False by (apply not_elem_of_nil). exact IH.
Qed.

(** X11.  When the response answers every submitted record with 429 or
    503, [Bulk] returns all of them, in order: a retry of the leftover then
    submits the very same records again. *)
Theorem Bulk_all_overloaded (ops : list Bulk) (reply : Http.Reply) (r : BulkResp.t) :
  response_of reply = Some r ->
  BulkResp.Errors r = true ->
  answers ops r ->
  Forall (fun it => retriable (item_status it) = true) (BulkResp.Items r) ->
  fst (fst (EsBulk.Bulk ops reply)) = ops /\ snd (fst (EsBulk.Bulk ops reply)) = None.
Proof.
  intros Hr He Ha Hall.
  destruct (response_of_Some reply r Hr) as (code & status & body & -> & Hc & Hd).
  rewrite (Bulk_by_id ops code status body r Hc Hd). cbn [fst snd]. split; [| reflexivity].
  assert (Hids : failed_ids r = map Id ops).
  { unfold failed_ids. rewrite He, Ha. f_equal.
    induction Hall as [| it items Hit _ IH]; [reflexivity |].
    rewrite filter_cons, decide_True by assumption. now rewrite IH. }
  rewrite Hids. clear. 
  assert (Hgen : forall l : list string,
             (forall op, op ∈ ops -> Id op ∈ l) -> filter (fun op => Id op ∈ l) ops = ops).
  { intros l. induction ops as [| op ops IH]; intros Hin; [reflexivity |].
    rewrite filter_cons, decide_True by (apply Hin; left).
    f_equal. apply IH. intros op' Hop'. apply Hin. now right. }
  apply Hgen. intros op Hop. now apply (list_elem_of_fmap_2 Id) in Hop.
Qed.

End BulkEdges.

Lemma Bulk_trusts_errors_flag_witness :
  EsBulk.Bulk (H := Json.text) [rec1; rec2] (bulk_reply false [("1", 201); ("2", 429)])
  = ([], None, []).
Proof.
  apply (Bulk_trusts_errors_flag (H := Json.text) [rec1; rec2]
           (bulk_reply false [("1", 201); ("2", 429)])
           (BulkResp.mk false [BulkResp.mkItem (BulkResp.mkCreate "1" 201);
                               BulkResp.mkItem (BulkResp.mkCreate "2" 429)]));
    vm_compute; reflexivity.
Defined.

Lemma Bulk_all_overloaded_witness :
  fst (fst (EsBulk.Bulk (H := Json.text) [rec1; rec2] (bulk_reply true [("1", 429); ("2", 503)])))
  = [rec1; rec2].
Proof.
  apply (Bulk_all_overloaded (H := Json.text) [rec1; rec2]
           (bulk_reply true [("1", 429); ("2", 503)])
           (BulkResp.mk true [BulkResp.mkItem (BulkResp.mkCreate "1" 429);
                              BulkResp.mkItem (BulkResp.mkCreate "2" 503)]));
    try (vm_compute; reflexivity).
  repeat constructor.
Defined.

(** X12.  The body of the bulk request is the file format: [Bulk] sends
    for its records exactly the bytes that [FileSink.AcceptFrom] writes for
    them. *)
Theorem Bulk_body_is_file_format (ops : list Bulk) (parallel : Z) :
  EsBulk.Bulk_body ops = stored ops
  /\ FileFlow.AcceptFrom parallel [ops] "" [] = (EsBulk.Bulk_body ops, None).
Proof.
  assert (Hb : forall buf, fold_left (fun buf b => buf +:+ Store b) ops buf = buf +:+ stored ops).
  { induction ops as [| b ops IH]; intros buf; cbn [fold_left stored fold_right].
    - now rewrite app_nil_r_str.
    - fold (stored ops). now rewrite IH, app_assoc_str. }
  assert (Heq : EsBulk.Bulk_body ops = stored ops).
  { unfold EsBulk.Bulk_body. now rewrite Hb, app_nil. }
  split; [exact Heq |].
  rewrite AcceptFrom_written, Heq. cbn [concat]. now rewrite app_nil_r, app_nil.
Qed.
